(** * ARGUS document pipeline: [functionapp/ai_ocr/process.py]

    A shallow embedding of the pipeline module: the document record and
    its state tracker ([initialize_document], [update_state]), the image
    reduction loop, and the two stage drivers ([run_ocr_and_gpt],
    [process_gpt_summary]) written in a state-and-exception monad over an
    explicit world (in-memory record, store, scratch directory, log). *)

From stdpp Require Import gmap strings list.
From Equations Require Import Equations.
From Stdlib Require Import Ascii ZArith Lia.

Local Open Scope string_scope.
Local Open Scope list_scope.
Local Open Scope Z_scope.

(** ** Strings *)

(** [str.replace(old, new)] for a one-character pattern [old]: every
    occurrence of the character is replaced, left to right. *)
Fixpoint replace_char (old : ascii) (new : string) (s : string) : string :=
  match s with
  | EmptyString => EmptyString
  | String c rest =>
      if Ascii.eqb c old
      then new +:+ replace_char old new rest
      else String c (replace_char old new rest)
  end.

(** Character membership in a string. *)
Fixpoint contains_char (c : ascii) (s : string) : bool :=
  match s with
  | EmptyString => false
  | String d rest => Ascii.eqb d c || contains_char c rest
  end.

Definition path_separator : ascii := "/"%char.
Definition underscore : ascii := "_"%char.

(** ** The document record *)

(** A parsed JSON value is kept through its canonical serialisation
    ([json.dumps]); the pipeline never looks inside it. *)
Record json := { dumps : string }.

(** A [datetime] with its ISO-8601 rendering; differences of [micros]
    give [timedelta.total_seconds()] in microsecond resolution. *)
Record datetime := { micros : Z; isoformat : string }.

(** Values of the [state] dictionary: stage flags and the paired
    [<stage>_time_seconds] durations (in microseconds). *)
Inductive state_value :=
| SFlag (b : bool)
| SSeconds (t : Z).

Record properties := {
  blob_name : string;
  blob_size : Z;
  request_timestamp : string
}.

Record extracted_data := {
  classification : string;
  accuracy : Z;
  ocr_output : string;
  gpt_extraction_output : json;
  gpt_summary_output : string
}.

Record model_input := {
  model_deployment : option string;
  model_prompt : string;
  example_schema : string
}.

Record document := {
  doc_id : string;
  doc_properties : properties;
  doc_state : gmap string state_value;
  doc_extracted_data : extracted_data;
  doc_model_input : model_input;
  doc_errors : list string
}.

Definition set_state (st : gmap string state_value) (d : document) : document :=
  {| doc_id := doc_id d; doc_properties := doc_properties d; doc_state := st;
     doc_extracted_data := doc_extracted_data d;
     doc_model_input := doc_model_input d; doc_errors := doc_errors d |}.

Definition set_extracted_data (x : extracted_data) (d : document) : document :=
  {| doc_id := doc_id d; doc_properties := doc_properties d;
     doc_state := doc_state d; doc_extracted_data := x;
     doc_model_input := doc_model_input d; doc_errors := doc_errors d |}.

Definition set_errors (es : list string) (d : document) : document :=
  {| doc_id := doc_id d; doc_properties := doc_properties d;
     doc_state := doc_state d; doc_extracted_data := doc_extracted_data d;
     doc_model_input := doc_model_input d; doc_errors := es |}.

Definition empty_object : json := {| dumps := "{}" |}.

(** [initialize_document]; [deployment] is the value of
    [os.getenv("AZURE_OPENAI_MODEL_DEPLOYMENT_NAME")]. *)
Definition initialize_document (deployment : option string)
    (file_name : string) (file_size : Z) (prompt json_schema : string)
    (request_timestamp : datetime) : document :=
  {| doc_id := replace_char path_separator "__" file_name;
     doc_properties :=
       {| blob_name := file_name;
          blob_size := file_size;
          request_timestamp := isoformat request_timestamp |};
     doc_state :=
       <["file_landed" := SFlag false]>
       (<["ocr_completed" := SFlag false]>
       (<["gpt_extraction_completed" := SFlag false]>
       (<["gpt_summary_completed" := SFlag false]>
       (<["processing_completed" := SFlag false]> ∅))));
     doc_extracted_data :=
       {| classification := "N/A";
          accuracy := 0;
          ocr_output := "";
          gpt_extraction_output := empty_object;
          gpt_summary_output := "" |};
     doc_model_input :=
       {| model_deployment := deployment;
          model_prompt := prompt;
          example_schema := json_schema |};
     doc_errors := [] |}.

(** The in-memory effect of [update_state] on the record: the two
    dictionary assignments that precede [container.upsert_item]. *)
Definition time_key (state_name : string) : string :=
  state_name +:+ "_time_seconds".

Definition assign_state (state_name : string) (state : bool)
    (processing_time : option Z) (d : document) : document :=
  let st := <[state_name := SFlag state]> (doc_state d) in
  match processing_time with
  | Some t => set_state (<[time_key state_name := SSeconds t]> st) d
  | None => set_state st d
  end.

Arguments assign_state : simpl never.

(** ** Exceptions *)

(** A Python exception: its class name, its message ([str(e)]), and
    whether its class derives from [Exception] (what [except Exception]
    tests); [KeyboardInterrupt], [SystemExit] and [GeneratorExit] derive
    from [BaseException] only. *)
Record exn := { exn_class : string; exn_str : string; is_Exception : bool }.

Inductive result (A : Type) :=
| Ok (a : A)
| Raise (e : exn).
Arguments Ok {A} a.
Arguments Raise {A} e.

Definition IndexError_pop : exn :=
  {| exn_class := "IndexError"; exn_str := "pop from empty list";
     is_Exception := true |}.

Definition AttributeError_categorization : exn :=
  {| exn_class := "AttributeError";
     exn_str := "object has no attribute 'categorization'";
     is_Exception := true |}.

(** ** Image reduction *)

(** A page image: the scratch file it was rasterized to and the length of
    its base64 encoding. *)
Record image := { img_path : string; encoded_size : N }.

(** Modelled from the spec: the configuration object [ai_ocr.model.Config]
    (maximum image count per document, maximum combined image payload size
    in megabytes). *)
Record Config := { max_images : Z; gpt_vision_limit_mb : Z }.

(** Modelled from the spec: [ai_ocr.azure.openai_ops.get_size_of_base64_images],
    the total encoded size of the images. *)
Definition get_size_of_base64_images (imgs : list image) : Z :=
  fold_right (fun i acc => Z.of_N (encoded_size i) + acc) 0 imgs.

(** The slice [l[:stop]]: a negative [stop] counts from the end. *)
Definition py_slice_to {A : Type} (stop : Z) (l : list A) : list A :=
  if 0 <=? stop
  then take (Z.to_nat stop) l
  else take (length l - Z.to_nat (- stop)) l.

(** [list.pop()]: drops the last element; [None] on the empty list, where
    Python raises [IndexError]. *)
Definition pop {A : Type} (l : list A) : option (list A) :=
  match l with
  | [] => None
  | _ :: _ => Some (removelast l)
  end.

(** One evaluation of the loop at lines 97-98: test the guard, then run
    the body. *)
Inductive iteration :=
| Exit
| Next (imgs' : list image)
| Abort (e : exn).

Definition reduce_step (max_size : Z) (imgs : list image) : iteration :=
  if max_size <? get_size_of_base64_images imgs
  then match pop imgs with
       | Some imgs' => Next imgs'
       | None => Abort IndexError_pop
       end
  else Exit.

(** The loop [while get_size_of_base64_images(imgs) > max_size: imgs.pop()],
    by well-founded recursion on the number of images left. *)
Equations? reduce_images (max_size : Z) (imgs : list image)
    : result (list image) by wf (length imgs) lt :=
  reduce_images max_size imgs with Logic.inspect (reduce_step max_size imgs) => {
    | exist _ Exit _ => Ok imgs
    | exist _ (Next imgs') Hstep => reduce_images max_size imgs'
    | exist _ (Abort e) _ => Raise e }.
Proof.
  unfold reduce_step in Hstep.
  destruct (max_size <? get_size_of_base64_images imgs); [|discriminate].
  destruct imgs as [|i imgs]; simpl in Hstep; [discriminate|].
  injection Hstep as <-.
  clear. revert i. induction imgs as [|j imgs IH]; intros i; simpl; [lia|].
  specialize (IH j). simpl in IH. lia.
Qed.

(** [max_size = config.gpt_vision_limit_mb * 1024 * 1024] *)
Definition max_size (config : Config) : Z :=
  gpt_vision_limit_mb config * 1024 * 1024.

(** Lines 91-98 on images whose encodings are known: the slice by
    [config.max_images] followed by the size loop. *)
Definition limit_and_reduce (config : Config) (imgs : list image)
    : result (list image) :=
  reduce_images (max_size config) (py_slice_to (max_images config) imgs).

Definition MB : N := 1024 * 1024.
Definition page (n : string) (mb : N) : image :=
  {| img_path := "/tmp/page" +:+ n +:+ ".jpeg"; encoded_size := mb * MB |}.

(** ** The world the pipeline runs in *)

Inductive stage := OCR | Extraction | Summary.

Definition stage_eqb (s1 s2 : stage) : bool :=
  match s1, s2 with
  | OCR, OCR | Extraction, Extraction | Summary, Summary => true
  | _, _ => false
  end.

Inductive level := PRINT | WARNING.

(** Ghost history of a run: capability calls with their outcome (the
    content of the message returned, or the exception raised),
    acknowledged upserts, and attempted deletions of scratch files. *)
Inductive event :=
| Returned (s : stage) (text : string)
| Failed (s : stage) (e : exn)
| Upserted (d : document)
| RemoveAttempted (img : image).

(** Whether the history holds a successful return of a stage's call, a
    failure of it, or an attempted deletion. *)
Definition is_return_of (s : stage) (ev : event) : bool :=
  match ev with
  | Returned s' _ => stage_eqb s s'
  | _ => false
  end.

Definition is_failure_of (s : stage) (ev : event) : bool :=
  match ev with
  | Failed s' _ => stage_eqb s s'
  | _ => false
  end.

Definition is_removal (ev : event) : bool :=
  match ev with
  | RemoveAttempted _ => true
  | _ => false
  end.

Definition returned (s : stage) (t : list event) : bool :=
  existsb (is_return_of s) t.

Definition failed (s : stage) (t : list event) : bool :=
  existsb (is_failure_of s) t.

Record world := {
  record : document;                 (* the dict the caller passes in *)
  container : gmap string document;  (* the store, keyed by record id *)
  tmp : list image;                  (* /tmp/page*.jpeg *)
  log : list (level * string);
  clock : Z;
  trace : list event
}.

Definition with_record (d : document) (w : world) : world :=
  {| record := d; container := container w; tmp := tmp w; log := log w;
     clock := clock w; trace := trace w |}.

Definition with_container (c : gmap string document) (w : world) : world :=
  {| record := record w; container := c; tmp := tmp w; log := log w;
     clock := clock w; trace := trace w |}.

Definition with_tmp (t : list image) (w : world) : world :=
  {| record := record w; container := container w; tmp := t; log := log w;
     clock := clock w; trace := trace w |}.

Definition with_log (l : list (level * string)) (w : world) : world :=
  {| record := record w; container := container w; tmp := tmp w; log := l;
     clock := clock w; trace := trace w |}.

Definition with_clock (c : Z) (w : world) : world :=
  {| record := record w; container := container w; tmp := tmp w; log := log w;
     clock := c; trace := trace w |}.

Definition with_trace (t : list event) (w : world) : world :=
  {| record := record w; container := container w; tmp := tmp w; log := log w;
     clock := clock w; trace := t |}.

(** Objects returned by the collaborators: only the attributes this
    module reads. *)
Record message := { content : string }.

Record ocr_response := {
  categorization : option string;  (* [None]: the attribute is absent *)
  response_text : string
}.

Record processing_times := {
  ocr_processing_time : Z;
  gpt_extraction_time : Z
}.

(** The collaborators, as the behaviour they show during one run. *)
Record env := {
  get_ocr_results : string -> result message;
  extract_images_from_pdf : string -> list image -> result unit * list image;
  makedirs : string -> result unit;
  load_image : image -> result image;
  get_structured_data :
    string -> string -> string -> list image -> result message;
  parse_json_markdown : string -> result json;
  get_summary_with_gpt : ocr_response -> result message;
  upsert_item : document -> result unit;
  os_remove : image -> result unit;
  latency : stage -> Z
}.

(** ** State and exceptions *)

Definition M (A : Type) : Type := world -> result A * world.

Definition ret {A} (a : A) : M A := fun w => (Ok a, w).

Definition raise {A} (e : exn) : M A := fun w => (Raise e, w).

Definition bind {A B} (m : M A) (k : A -> M B) : M B :=
  fun w =>
    match m w with
    | (Ok a, w') => k a w'
    | (Raise e, w') => (Raise e, w')
    end.

(** [try: m except Exception as e: h e]: an exception whose class does
    not derive from [Exception] passes the handler by. *)
Definition try_except {A} (m : M A) (h : exn -> M A) : M A :=
  fun w =>
    match m w with
    | (Ok a, w') => (Ok a, w')
    | (Raise e, w') => if is_Exception e then h e w' else (Raise e, w')
    end.

Declare Scope pipeline_scope.
Delimit Scope pipeline_scope with pipeline.
Notation "x <- m ;; k" := (bind m (fun x => k))
  (at level 100, m at next level, right associativity) : pipeline_scope.
Notation "m ;; k" := (bind m (fun _ => k))
  (at level 100, right associativity) : pipeline_scope.
Local Open Scope pipeline_scope.

Definition lift {A} (r : result A) : M A := fun w => (r, w).

Definition get {A} (f : world -> A) : M A := fun w => (Ok (f w), w).

Definition modify (f : world -> world) : M unit := fun w => (Ok tt, f w).

Definition modify_record (f : document -> document) : M unit :=
  modify (fun w => with_record (f (record w)) w).

Definition emit (ev : event) : M unit :=
  modify (fun w => with_trace (trace w ++ [ev]) w).

Definition write_log (l : level) (msg : string) : M unit :=
  modify (fun w => with_log (log w ++ [(l, msg)]) w).

Definition now : M Z := get clock.

(** A capability call: time passes, and the history notes how it ended. *)
Definition call (E : env) (s : stage) (r : result message) : M message :=
  modify (fun w => with_clock (clock w + latency E s) w) ;;
  match r with
  | Ok a => emit (Returned s (content a)) ;; ret a
  | Raise e => emit (Failed s e) ;; raise e
  end.

Fixpoint for_each {A} (f : A -> M unit) (l : list A) : M unit :=
  match l with
  | [] => ret tt
  | x :: rest => f x ;; for_each f rest
  end.

Fixpoint map_m {A B} (f : A -> M B) (l : list A) : M (list B) :=
  match l with
  | [] => ret []
  | x :: rest => y <- f x ;; ys <- map_m f rest ;; ret (y :: ys)
  end.

(** ** The state tracker and the stage drivers *)

(** The [document] and [container] arguments of the Python functions are
    the [record] and [container] components of the world: the dict is
    shared with the caller, so a function that raises leaves its
    assignments behind. *)

Section Pipeline.

Context (E : env).

(** [container.upsert_item(document)]: a full-record upsert keyed by id. *)
Definition upsert : M unit :=
  fun w =>
    match upsert_item E (record w) with
    | Ok _ =>
        (Ok tt,
         with_trace (trace w ++ [Upserted (record w)])
           (with_container (<[doc_id (record w) := record w]> (container w)) w))
    | Raise e => (Raise e, w)
    end.

Definition update_state (state_name : string) (state : bool)
    (processing_time : option Z) : M unit :=
  modify_record (assign_state state_name state processing_time) ;;
  upsert.

(** [glob.glob("/tmp//page*.jpeg")] *)
Definition glob_pages : M (list image) := get tmp.

Definition rasterize (file_to_ocr : string) : M unit :=
  fun w =>
    let '(r, t) := extract_images_from_pdf E file_to_ocr (tmp w) in
    (r, with_tmp t w).

Definition unlink (img : image) : M unit :=
  emit (RemoveAttempted img) ;;
  lift (os_remove E img) ;;
  modify (fun w =>
    with_tmp (filter (fun i => img_path i ≠ img_path img) (tmp w)) w).

(** The body of the deletion loop, lines 111-115. *)
Definition remove_image (img : image) : M unit :=
  try_except
    (unlink img ;;
     write_log PRINT ("Deleted image: " +:+ img_path img))
    (fun e =>
     write_log PRINT
       ("Error deleting image " +:+ img_path img +:+ ": " +:+ exn_str e)).

Definition run_ocr_and_gpt (file_to_ocr prompt json_schema : string)
    (config : Config) : M (string * string * processing_times) :=
  (* Get OCR results *)
  ocr_start_time <- now ;;
  ocr_result <- call E OCR (get_ocr_results E file_to_ocr) ;;
  ocr_end_time <- now ;;
  let ocr_processing_time := ocr_end_time - ocr_start_time in
  (* Update state after OCR processing *)
  update_state "ocr_completed" true (Some ocr_processing_time) ;;
  (* Extract images from the PDF *)
  rasterize file_to_ocr ;;
  lift (makedirs E "/tmp/") ;;
  imgs <- glob_pages ;;
  (* Limit images by config *)
  let imgs := py_slice_to (max_images config) imgs in
  imgs <- map_m (fun img => lift (load_image E img)) imgs ;;
  (* Check and reduce images total size if over the limit *)
  imgs <- lift (reduce_images (max_size config) imgs) ;;
  (* Get structured data *)
  gpt_extraction_start_time <- now ;;
  structured <-
    call E Extraction
      (get_structured_data E (content ocr_result) prompt json_schema imgs) ;;
  gpt_extraction_end_time <- now ;;
  let gpt_extraction_time :=
    gpt_extraction_end_time - gpt_extraction_start_time in
  (* Update state after GPT extraction *)
  update_state "gpt_extraction_completed" true (Some gpt_extraction_time) ;;
  (* Delete all generated images created after processing *)
  pages <- glob_pages ;;
  for_each remove_image pages ;;
  (* Parse structured data and return as JSON *)
  x <- lift (parse_json_markdown E (content structured)) ;;
  ret (content ocr_result, dumps x,
       {| ocr_processing_time := ocr_processing_time;
          gpt_extraction_time := gpt_extraction_time |}).

(** [ocr_response.categorization]: raises [AttributeError] when absent. *)
Definition get_categorization (ocr_response : ocr_response) : M string :=
  match categorization ocr_response with
  | Some c => ret c
  | None => raise AttributeError_categorization
  end.

Definition set_classification (c : string) (d : document) : document :=
  let x := doc_extracted_data d in
  set_extracted_data
    {| classification := c; accuracy := accuracy x;
       ocr_output := ocr_output x;
       gpt_extraction_output := gpt_extraction_output x;
       gpt_summary_output := gpt_summary_output x |} d.

Definition set_gpt_summary_output (s : string) (d : document) : document :=
  let x := doc_extracted_data d in
  set_extracted_data
    {| classification := classification x; accuracy := accuracy x;
       ocr_output := ocr_output x;
       gpt_extraction_output := gpt_extraction_output x;
       gpt_summary_output := s |} d.

Definition append_error (msg : string) (d : document) : document :=
  set_errors (doc_errors d ++ [msg]) d.

Definition categorization_warning : string :=
  "Cannot find 'categorization' in output schema! Logging it as N/A...".

Definition process_gpt_summary (ocr_response : ocr_response) : M unit :=
  try_except
    (classification <-
       try_except (get_categorization ocr_response)
         (fun e =>
            if String.eqb (exn_class e) "AttributeError"
            then write_log WARNING categorization_warning ;; ret "N/A"
            else raise e) ;;
     summary_start_time <- now ;;
     gpt_summary <- call E Summary (get_summary_with_gpt E ocr_response) ;;
     summary_end_time <- now ;;
     let summary_processing_time := summary_end_time - summary_start_time in
     update_state "gpt_summary_completed" true (Some summary_processing_time) ;;
     modify_record (set_classification classification) ;;
     modify_record (set_gpt_summary_output (content gpt_summary)))
    (fun e =>
     modify_record (append_error ("NL processing error: " +:+ exn_str e)) ;;
     update_state "gpt_summary_completed" false None ;;
     raise e).

End Pipeline.

(** ** Record ids that can be told apart *)

(** File names on which the id derivation can be inverted: no underscore
    is immediately followed by another underscore or by a path separator. *)
Definition clash (a b : ascii) : bool :=
  Ascii.eqb a underscore
  && (Ascii.eqb b underscore || Ascii.eqb b path_separator).

Fixpoint isolated_underscores (s : string) : bool :=
  match s with
  | EmptyString => true
  | String a rest =>
      match rest with
      | EmptyString => true
      | String b _ => negb (clash a b) && isolated_underscores rest
      end
  end.

Definition record_id (file_name : string) : string :=
  replace_char path_separator "__" file_name.

(** ** The reducer by iteration count, and inside a run *)

(** The loop driven by an explicit count of guard evaluations. *)
Fixpoint run_loop (fuel : nat) (max_size : Z) (imgs : list image)
    : option (result (list image)) :=
  match fuel with
  | O => None
  | S fuel' =>
      match reduce_step max_size imgs with
      | Exit => Some (Ok imgs)
      | Next imgs' => run_loop fuel' max_size imgs'
      | Abort e => Some (Raise e)
      end
  end.

Definition rasterized (E : env) (file_to_ocr : string) (w : world) : list image :=
  (extract_images_from_pdf E file_to_ocr (tmp w)).2.

(** The list comprehension at line 93, outside the monad. *)
Fixpoint load_all (E : env) (l : list image) : result (list image) :=
  match l with
  | [] => Ok []
  | img :: rest =>
      match load_image E img with
      | Ok y =>
          match load_all E rest with
          | Ok ys => Ok (y :: ys)
          | Raise e => Raise e
          end
      | Raise e => Raise e
      end
  end.

(** Lines 92-98 on the listing of the scratch directory: the images that
    are handed to the extraction call. *)
Definition selected (E : env) (cfg : Config) (pages : list image)
    : result (list image) :=
  match load_all E (py_slice_to (max_images cfg) pages) with
  | Ok loaded => reduce_images (max_size cfg) loaded
  | Raise e => Raise e
  end.

(** ** Records and worlds along a run *)

Definition after_ocr (E : env) (d : document) : document :=
  assign_state "ocr_completed" true (Some (latency E OCR)) d.

Definition after_extraction (E : env) (d : document) : document :=
  assign_state "gpt_extraction_completed" true (Some (latency E Extraction))
    (after_ocr E d).

Arguments after_ocr : simpl never.
Arguments after_extraction : simpl never.

Definition saved (d : document) (w : world) : gmap string document :=
  <[doc_id d := d]> (container w).

(** What is left of the scratch listing [t] after the deletion loop ran
    over [l]: a successful [os.remove] takes the file away. *)
Definition surviving (E : env) (l t : list image) : list image :=
  fold_left
    (fun t img =>
       match os_remove E img with
       | Ok _ => filter (fun i => img_path i ≠ img_path img) t
       | Raise _ => t
       end) l t.

(** A deletion that raises outside [Exception] is not caught at line 114
    and ends the loop. *)
Definition interrupts (E : env) (img : image) : option exn :=
  match os_remove E img with
  | Ok _ => None
  | Raise e => if is_Exception e then None else Some e
  end.

(** The pages the deletion loop gets to: all of them, or those up to the
    one whose deletion ends the loop. *)
Fixpoint attempted (E : env) (l : list image) : list image :=
  match l with
  | [] => []
  | img :: rest =>
      match interrupts E img with
      | Some _ => [img]
      | None => img :: attempted E rest
      end
  end.

Fixpoint cleanup_outcome (E : env) (l : list image) : result unit :=
  match l with
  | [] => Ok tt
  | img :: rest =>
      match interrupts E img with
      | Some e => Raise e
      | None => cleanup_outcome E rest
      end
  end.

(** What the loop prints for one page (lines 113 and 115). *)
Definition removal_line (E : env) (img : image) : list (level * string) :=
  match os_remove E img with
  | Ok _ => [(PRINT, "Deleted image: " +:+ img_path img)]
  | Raise e =>
      if is_Exception e
      then [(PRINT,
             "Error deleting image " +:+ img_path img +:+ ": " +:+ exn_str e)]
      else []
  end.

Definition cleanup_log (E : env) (l : list image) : list (level * string) :=
  flat_map (removal_line E) (attempted E l).

(** How far a run got, and the world it leaves: the record, the store, the
    scratch directory, the log and the history. *)
Inductive run_shape (E : env) (f p js : string) (cfg : Config) (w : world)
    : result (string * string * processing_times) -> world -> Prop :=
| run_ocr_failed e w' :
    get_ocr_results E f = Raise e ->
    record w' = record w ->
    container w' = container w ->
    tmp w' = tmp w ->
    log w' = log w ->
    trace w' = trace w ++ [Failed OCR e] ->
    run_shape E f p js cfg w (Raise e) w'
| run_ocr_unsaved ocr e w' :
    get_ocr_results E f = Ok ocr ->
    upsert_item E (after_ocr E (record w)) = Raise e ->
    record w' = after_ocr E (record w) ->
    container w' = container w ->
    tmp w' = tmp w ->
    log w' = log w ->
    trace w' = trace w ++ [Returned OCR (content ocr)] ->
    run_shape E f p js cfg w (Raise e) w'
| run_preparation_failed ocr e w' :
    get_ocr_results E f = Ok ocr ->
    record w' = after_ocr E (record w) ->
    container w' = saved (after_ocr E (record w)) w ->
    tmp w' = rasterized E f w ->
    log w' = log w ->
    trace w' =
      trace w ++ [Returned OCR (content ocr);
                  Upserted (after_ocr E (record w))] ->
    run_shape E f p js cfg w (Raise e) w'
| run_extraction_failed ocr imgs e w' :
    get_ocr_results E f = Ok ocr ->
    selected E cfg (rasterized E f w) = Ok imgs ->
    get_structured_data E (content ocr) p js imgs = Raise e ->
    record w' = after_ocr E (record w) ->
    container w' = saved (after_ocr E (record w)) w ->
    tmp w' = rasterized E f w ->
    log w' = log w ->
    trace w' =
      trace w ++ [Returned OCR (content ocr);
                  Upserted (after_ocr E (record w));
                  Failed Extraction e] ->
    run_shape E f p js cfg w (Raise e) w'
| run_extraction_unsaved ocr imgs reply e w' :
    get_ocr_results E f = Ok ocr ->
    selected E cfg (rasterized E f w) = Ok imgs ->
    get_structured_data E (content ocr) p js imgs = Ok reply ->
    upsert_item E (after_extraction E (record w)) = Raise e ->
    record w' = after_extraction E (record w) ->
    container w' = saved (after_ocr E (record w)) w ->
    tmp w' = rasterized E f w ->
    log w' = log w ->
    trace w' =
      trace w ++ [Returned OCR (content ocr);
                  Upserted (after_ocr E (record w));
                  Returned Extraction (content reply)] ->
    run_shape E f p js cfg w (Raise e) w'
| run_cleaned ocr imgs reply r w' :
    get_ocr_results E f = Ok ocr ->
    selected E cfg (rasterized E f w) = Ok imgs ->
    get_structured_data E (content ocr) p js imgs = Ok reply ->
    upsert_item E (after_extraction E (record w)) = Ok tt ->
    record w' = after_extraction E (record w) ->
    container w' =
      <[doc_id (record w) := after_extraction E (record w)]>
        (saved (after_ocr E (record w)) w) ->
    tmp w' =
      surviving E (attempted E (rasterized E f w)) (rasterized E f w) ->
    log w' = log w ++ cleanup_log E (rasterized E f w) ->
    trace w' =
      trace w ++ [Returned OCR (content ocr);
                  Upserted (after_ocr E (record w));
                  Returned Extraction (content reply);
                  Upserted (after_extraction E (record w))]
              ++ map RemoveAttempted (attempted E (rasterized E f w)) ->
    r = match cleanup_outcome E (rasterized E f w) with
        | Raise e => Raise e
        | Ok _ =>
            match parse_json_markdown E (content reply) with
            | Ok x =>
                Ok (content ocr, dumps x,
                    {| ocr_processing_time := latency E OCR;
                       gpt_extraction_time := latency E Extraction |})
            | Raise e => Raise e
            end
        end ->
    run_shape E f p js cfg w r w'.

Definition after_summary (E : env) (d : document) : document :=
  assign_state "gpt_summary_completed" true (Some (latency E Summary)) d.

(** The record as the handler at lines 134-136 leaves it. *)
Definition summary_error (e : exn) (d : document) : document :=
  assign_state "gpt_summary_completed" false None
    (append_error ("NL processing error: " +:+ exn_str e) d).

Definition with_summary (resp : ocr_response) (s : message) (d : document)
    : document :=
  set_gpt_summary_output (content s)
    (set_classification (default "N/A" (categorization resp)) d).

Arguments after_summary : simpl never.
Arguments summary_error : simpl never.
Arguments with_summary : simpl never.

(** What probing [categorization] writes to the log. *)
Definition probe_log (resp : ocr_response) : list (level * string) :=
  match categorization resp with
  | Some _ => []
  | None => [(WARNING, categorization_warning)]
  end.

(** The handler's own upsert decides which exception leaves the stage. *)
Definition reraise (E : env) (e : exn) (d : document) : result unit :=
  match upsert_item E d with
  | Ok _ => Raise e
  | Raise e' => Raise e'
  end.

Definition acknowledged (E : env) (d : document) : list event :=
  match upsert_item E d with
  | Ok _ => [Upserted d]
  | Raise _ => []
  end.

Inductive summary_shape (E : env) (resp : ocr_response) (w : world)
    : result unit -> world -> Prop :=
| summary_interrupted e w' :
    get_summary_with_gpt E resp = Raise e ->
    is_Exception e = false ->
    record w' = record w ->
    log w' = log w ++ probe_log resp ->
    trace w' = trace w ++ [Failed Summary e] ->
    summary_shape E resp w (Raise e) w'
| summary_failed e r w' :
    get_summary_with_gpt E resp = Raise e ->
    is_Exception e = true ->
    r = reraise E e (summary_error e (record w)) ->
    record w' = summary_error e (record w) ->
    log w' = log w ++ probe_log resp ->
    trace w' =
      trace w ++ [Failed Summary e]
              ++ acknowledged E (summary_error e (record w)) ->
    summary_shape E resp w r w'
| summary_unsaved_interrupted s e w' :
    get_summary_with_gpt E resp = Ok s ->
    upsert_item E (after_summary E (record w)) = Raise e ->
    is_Exception e = false ->
    record w' = after_summary E (record w) ->
    log w' = log w ++ probe_log resp ->
    trace w' = trace w ++ [Returned Summary (content s)] ->
    summary_shape E resp w (Raise e) w'
| summary_unsaved s e r w' :
    get_summary_with_gpt E resp = Ok s ->
    upsert_item E (after_summary E (record w)) = Raise e ->
    is_Exception e = true ->
    r = reraise E e (summary_error e (after_summary E (record w))) ->
    record w' = summary_error e (after_summary E (record w)) ->
    log w' = log w ++ probe_log resp ->
    trace w' =
      trace w ++ [Returned Summary (content s)]
              ++ acknowledged E (summary_error e (after_summary E (record w))) ->
    summary_shape E resp w r w'
| summary_done s w' :
    get_summary_with_gpt E resp = Ok s ->
    upsert_item E (after_summary E (record w)) = Ok tt ->
    record w' = with_summary resp s (after_summary E (record w)) ->
    log w' = log w ++ probe_log resp ->
    trace w' =
      trace w ++ [Returned Summary (content s);
                  Upserted (after_summary E (record w))] ->
    summary_shape E resp w (Ok tt) w'.

(** ** Concrete collaborators and worlds *)

Definition epoch : datetime :=
  {| micros := 0; isoformat := "1970-01-01T00:00:00" |}.

Definition fresh_world (d : document) (pages : list image) : world :=
  {| record := d; container := ∅; tmp := pages; log := []; clock := 0;
     trace := [] |}.

Definition invoice : document :=
  initialize_document (Some "gpt-4o") "in/invoice.pdf" 2048
    "Extract the fields" "{}" epoch.

Definition JSONDecodeError : exn :=
  {| exn_class := "JSONDecodeError"; exn_str := "Expecting value";
     is_Exception := true |}.

Definition ServiceUnavailable : exn :=
  {| exn_class := "HttpResponseError"; exn_str := "503 Service Unavailable";
     is_Exception := true |}.

(** Collaborators whose three capability calls end as given; everything
    else answers, and the parser accepts fenced text only. *)
Definition collaborators (ocr reply summary : result message) : env :=
  {| get_ocr_results := fun _ => ocr;
     extract_images_from_pdf :=
       fun _ _ => (Ok tt, [page "1" 1; page "2" 1]);
     makedirs := fun _ => Ok tt;
     load_image := fun img => Ok img;
     get_structured_data := fun _ _ _ _ => reply;
     parse_json_markdown :=
       fun s => if String.prefix "```" s
                then Ok {| dumps := s |}
                else Raise JSONDecodeError;
     get_summary_with_gpt := fun _ => summary;
     upsert_item := fun _ => Ok tt;
     os_remove := fun _ => Ok tt;
     latency := fun _ => 1000 |}.

Definition scanned : result message := Ok {| content := "Invoice 42" |}.
Definition summarized : result message := Ok {| content := "An invoice." |}.

Definition healthy (reply : string) : env :=
  collaborators scanned (Ok {| content := reply |}) summarized.

Definition default_config : Config :=
  {| max_images := 10; gpt_vision_limit_mb := 20 |}.

Definition no_category : ocr_response :=
  {| categorization := None; response_text := "Invoice 42" |}.

Definition summary_down : env :=
  collaborators scanned (Ok {| content := "```json {}```" |})
    (Raise ServiceUnavailable).

Definition ocr_down : env :=
  collaborators (Raise ServiceUnavailable)
    (Ok {| content := "```json {}```" |}) summarized.

Definition extraction_down : env :=
  collaborators scanned (Raise ServiceUnavailable) summarized.

Definition run_on (E : env) : result (string * string * processing_times) * world :=
  run_ocr_and_gpt E "/tmp/in/invoice.pdf" "Extract the fields" "{}"
    default_config (fresh_world invoice []).


(** ** Connecting to the store: [connect_to_cosmos] *)

(** [os.environ[k]] raises [KeyError(k)], whose [str] is the quoted key. *)
Definition KeyError (k : string) : exn :=
  {| exn_class := "KeyError"; exn_str := "'" +:+ k +:+ "'";
     is_Exception := true |}.

Definition environ_item (environ : gmap string string) (k : string)
    : result string :=
  match environ !! k with
  | Some v => Ok v
  | None => Raise (KeyError k)
  end.

(** The objects of the Cosmos SDK, by what they were built from, and the
    three SDK calls as the behaviour they show. *)
Record client_handle := { client_endpoint : string; client_key : string }.
Record database_proxy := { database_client : client_handle; database_id : string }.
Record container_proxy := { container_database : database_proxy; container_id : string }.

Record cosmos_sdk := {
  CosmosClient : string -> string -> result client_handle;
  get_database_client : client_handle -> string -> result database_proxy;
  get_container_client : database_proxy -> string -> result container_proxy
}.

Definition connect_to_cosmos (environ : gmap string string) (sdk : cosmos_sdk)
    : result (client_handle * container_proxy) :=
  match environ_item environ "COSMOS_DB_ENDPOINT" with
  | Raise e => Raise e
  | Ok endpoint =>
  match environ_item environ "COSMOS_DB_KEY" with
  | Raise e => Raise e
  | Ok key =>
  match environ_item environ "COSMOS_DB_DATABASE_NAME" with
  | Raise e => Raise e
  | Ok database_name =>
  match environ_item environ "COSMOS_DB_CONTAINER_NAME" with
  | Raise e => Raise e
  | Ok container_name =>
  match CosmosClient sdk endpoint key with
  | Raise e => Raise e
  | Ok client =>
  match get_database_client sdk client database_name with
  | Raise e => Raise e
  | Ok database =>
  match get_container_client sdk database container_name with
  | Raise e => Raise e
  | Ok container => Ok (client, container)
  end end end end end end end.

(** The variables in the order the function reads them. *)
Definition cosmos_variables : list string :=
  ["COSMOS_DB_ENDPOINT"; "COSMOS_DB_KEY"; "COSMOS_DB_DATABASE_NAME";
   "COSMOS_DB_CONTAINER_NAME"].

(** ** Staging a blob: [write_blob_to_temp_file] *)

Definition is_sep (c : ascii) : bool := Ascii.eqb c path_separator.

Definition starts_with_sep (s : string) : bool :=
  match s with
  | EmptyString => false
  | String c _ => is_sep c
  end.

Fixpoint ends_with_sep (s : string) : bool :=
  match s with
  | EmptyString => false
  | String c EmptyString => is_sep c
  | String _ rest => ends_with_sep rest
  end.

(** [os.path.join(a, b)] on POSIX: an absolute [b] discards [a]. *)
Definition posix_join (a b : string) : string :=
  if starts_with_sep b then b
  else if String.eqb a "" || ends_with_sep a then a +:+ b
  else a +:+ "/" +:+ b.

Fixpoint drop_while {A} (f : A -> bool) (l : list A) : list A :=
  match l with
  | [] => []
  | x :: rest => if f x then drop_while f rest else l
  end.

(** [os.path.dirname(p)] on POSIX: [p] up to its last separator, with
    trailing separators stripped unless nothing else is left. The two
    scans from the right run over the reversed characters. *)
Definition posix_dirname (p : string) : string :=
  let head := drop_while (fun c => negb (is_sep c)) (rev (String.list_ascii_of_string p)) in
  if forallb is_sep head
  then String.string_of_list_ascii (rev head)
  else String.string_of_list_ascii (rev (drop_while is_sep head)).

(** The blob handed over by the trigger: its [name] and what [read()]
    gives. *)
Record InputStream := { name : string; read : result string }.

(** The operating system as the function meets it. *)
Record os_env := {
  gettempdir : string;
  os_makedirs : string -> result unit;
  open_write : string -> string -> result unit
}.

(** What the function did to the file system. *)
Inductive fs_event :=
| MakeDirs (path : string)
| WriteFile (path : string) (data : string).

Definition write_blob_to_temp_file (O : os_env) (myblob : InputStream)
    (fs : list fs_event) : result string * list fs_event :=
  match read myblob with
  | Raise e => (Raise e, fs)
  | Ok file_content =>
      let file_name := name myblob in
      let temp_file_path := posix_join (gettempdir O) file_name in
      match os_makedirs O (posix_dirname temp_file_path) with
      | Raise e => (Raise e, fs)
      | Ok _ =>
          let fs := fs ++ [MakeDirs (posix_dirname temp_file_path)] in
          match open_write O temp_file_path file_content with
          | Raise e => (Raise e, fs)
          | Ok _ =>
              (Ok temp_file_path,
               fs ++ [WriteFile temp_file_path file_content])
          end
      end
  end.

Definition linux : os_env :=
  {| gettempdir := "/tmp";
     os_makedirs := fun _ => Ok tt;
     open_write := fun _ _ => Ok tt |}.

(** ** The history a run adds, and further concrete inputs *)

Definition accepting : env := healthy "```json {}```".

Definition KeyboardInterrupt : exn :=
  {| exn_class := "KeyboardInterrupt"; exn_str := ""; is_Exception := false |}.

Definition StoreDown : exn :=
  {| exn_class := "CosmosHttpResponseError"; exn_str := "Request timed out";
     is_Exception := true |}.

(** Collaborators as in [accepting], with a store that rejects every
    upsert. *)
Definition store_down : env :=
  {| get_ocr_results := get_ocr_results accepting;
     extract_images_from_pdf := extract_images_from_pdf accepting;
     makedirs := makedirs accepting;
     load_image := load_image accepting;
     get_structured_data := get_structured_data accepting;
     parse_json_markdown := parse_json_markdown accepting;
     get_summary_with_gpt := get_summary_with_gpt accepting;
     upsert_item := fun _ => Raise StoreDown;
     os_remove := os_remove accepting;
     latency := latency accepting |}.

(** Collaborators whose summarization call fails and whose store rejects
    every upsert. *)
Definition summary_and_store_down : env :=
  {| get_ocr_results := get_ocr_results accepting;
     extract_images_from_pdf := extract_images_from_pdf accepting;
     makedirs := makedirs accepting;
     load_image := load_image accepting;
     get_structured_data := get_structured_data accepting;
     parse_json_markdown := parse_json_markdown accepting;
     get_summary_with_gpt := fun _ => Raise ServiceUnavailable;
     upsert_item := fun _ => Raise StoreDown;
     os_remove := os_remove accepting;
     latency := latency accepting |}.

(** Collaborators whose summarization call is interrupted, and
    collaborators whose every deletion is. *)
Definition summary_interrupted_env : env :=
  collaborators scanned (Ok {| content := "```json {}```" |})
    (Raise KeyboardInterrupt).

Definition removal_interrupted_env : env :=
  {| get_ocr_results := get_ocr_results accepting;
     extract_images_from_pdf := extract_images_from_pdf accepting;
     makedirs := makedirs accepting;
     load_image := load_image accepting;
     get_structured_data := get_structured_data accepting;
     parse_json_markdown := parse_json_markdown accepting;
     get_summary_with_gpt := get_summary_with_gpt accepting;
     upsert_item := upsert_item accepting;
     os_remove := fun _ => Raise KeyboardInterrupt;
     latency := latency accepting |}.

(** The part of the history that a run added. *)
Definition new_events (w w' : world) : list event :=
  drop (length (trace w)) (trace w').

Definition negative_limit : Config :=
  {| max_images := 10; gpt_vision_limit_mb := -1 |}.

Definition one_page : Config :=
  {| max_images := 1; gpt_vision_limit_mb := 20 |}.

Definition categorized : ocr_response :=
  {| categorization := Some "invoice"; response_text := "Invoice 42" |}.

Definition no_sdk : cosmos_sdk :=
  {| CosmosClient := fun e k => Ok {| client_endpoint := e; client_key := k |};
     get_database_client :=
       fun c n => Ok {| database_client := c; database_id := n |};
     get_container_client :=
       fun d n => Ok {| container_database := d; container_id := n |} |}.

Definition half_configured : gmap string string :=
  <["COSMOS_DB_ENDPOINT" := "https://argus.documents.azure.com"]>
  (<["COSMOS_DB_CONTAINER_NAME" := "documents"]> ∅).

(** * Properties *)

(** ** The model on concrete inputs *)

Example ex_record_id :
  doc_id (initialize_document None "in/2024/invoice_7.pdf" 1 "" "" epoch)
  = "in__2024__invoice_7.pdf".
Proof. reflexivity. Qed.

Example ex_slice_negative : py_slice_to (-1) [1; 2; 3] = [1; 2].
Proof. reflexivity. Qed.

Example ex_healthy_run :
  (run_on (healthy "```json {}```")).1
  = Ok ("Invoice 42", "```json {}```",
        {| ocr_processing_time := 1000; gpt_extraction_time := 1000 |})
  /\ tmp (run_on (healthy "```json {}```")).2 = []
  /\ doc_state (record (run_on (healthy "```json {}```")).2)
       !! "gpt_extraction_completed_time_seconds" = Some (SSeconds 1000).
Proof. vm_compute. repeat split; reflexivity. Qed.

Example ex_summary_run :
  (process_gpt_summary (healthy "```json {}```") no_category
     (fresh_world invoice [])).1 = Ok tt
  /\ gpt_summary_output
       (doc_extracted_data
          (record (process_gpt_summary (healthy "```json {}```") no_category
                     (fresh_world invoice [])).2)) = "An invoice.".
Proof. vm_compute. split; reflexivity. Qed.

Example ex_reduce :
  limit_and_reduce {| max_images := 10; gpt_vision_limit_mb := 20 |}
    [page "1" 9; page "2" 6; page "3" 3; page "4" 8; page "5" 2]
  = Ok [page "1" 9; page "2" 6; page "3" 3].
Proof. vm_compute. reflexivity. Qed.

(** ** Record identity *)

Lemma initialize_document_id dep f sz p js ts :
  doc_id (initialize_document dep f sz p js ts) = record_id f.
Proof. reflexivity. Qed.

Lemma record_id_cons c s :
  record_id (String c s) =
  if Ascii.eqb c path_separator
  then String underscore (String underscore (record_id s))
  else String c (record_id s).
Proof. unfold record_id. simpl. destruct (Ascii.eqb c path_separator); reflexivity. Qed.

Lemma record_id_separator_free s :
  contains_char path_separator (record_id s) = false.
Proof.
  induction s as [|c s IH]; [reflexivity|].
  rewrite record_id_cons.
  destruct (Ascii.eqb c path_separator) eqn:Hc; simpl; rewrite ?Hc; exact IH.
Qed.

Lemma isolated_tail c s :
  isolated_underscores (String c s) = true -> isolated_underscores s = true.
Proof.
  destruct s as [|d s]; [reflexivity|].
  intros H. change (negb (clash c d) && isolated_underscores (String d s) = true) in H.
  apply andb_prop in H. apply H.
Qed.

(** After an isolated underscore, the id of the rest cannot start with an
    underscore. *)
Lemma record_id_no_leading_underscore s x :
  isolated_underscores (String underscore s) = true ->
  record_id s <> String underscore x.
Proof.
  intros Hiso. destruct s as [|d s]; [discriminate|].
  change (negb (clash underscore d) && isolated_underscores (String d s) = true)
    in Hiso.
  apply andb_prop in Hiso. destruct Hiso as [Hcl _].
  apply negb_true_iff in Hcl. unfold clash in Hcl. simpl in Hcl.
  apply orb_false_elim in Hcl. destruct Hcl as [Hu Hs].
  rewrite record_id_cons, Hs.
  intros Heq. injection Heq as Hd _. subst d. discriminate.
Qed.

Lemma record_id_injective s1 : forall s2,
  isolated_underscores s1 = true ->
  isolated_underscores s2 = true ->
  record_id s1 = record_id s2 -> s1 = s2.
Proof.
  induction s1 as [|c1 s1 IH]; intros [|c2 s2] H1 H2 Heq.
  - reflexivity.
  - rewrite record_id_cons in Heq.
    destruct (Ascii.eqb c2 path_separator); discriminate.
  - rewrite record_id_cons in Heq.
    destruct (Ascii.eqb c1 path_separator); discriminate.
  - pose proof (isolated_tail _ _ H1) as T1.
    pose proof (isolated_tail _ _ H2) as T2.
    rewrite !record_id_cons in Heq.
    destruct (Ascii.eqb_spec c1 path_separator) as [->|N1];
      destruct (Ascii.eqb_spec c2 path_separator) as [->|N2].
    + injection Heq as Heq. f_equal. auto.
    + injection Heq as Hc Heq. subst c2. exfalso.
      symmetry in Heq.
      apply (record_id_no_leading_underscore _ _ H2 Heq).
    + injection Heq as Hc Heq. subst c1. exfalso.
      apply (record_id_no_leading_underscore _ _ H1 Heq).
    + injection Heq as Hc Heq. subst c2. f_equal. auto.
Qed.

(** C9. For every file name (in particular one containing path
    separators) the id of the record built by [initialize_document]
    contains no path separator, and the id is a function of the file name
    alone: whatever the other arguments and the environment, the same file
    name yields the same id. *)
Theorem initialize_document_id_separator_free_deterministic :
  forall dep file_name file_size prompt json_schema ts,
    contains_char path_separator
      (doc_id (initialize_document dep file_name file_size prompt json_schema ts))
    = false
    /\ (forall dep' file_size' prompt' json_schema' ts',
          doc_id (initialize_document dep' file_name file_size' prompt'
                    json_schema' ts')
          = doc_id (initialize_document dep file_name file_size prompt
                      json_schema ts)).
Proof.
  intros. split.
  - rewrite initialize_document_id. apply record_id_separator_free.
  - intros. reflexivity.
Qed.

(** C8, as stated, fails: the two distinct paths [a/b] and [a__b] get the
    same record id. *)
Lemma initialize_document_id_collision :
  "a/b" <> "a__b"
  /\ doc_id (initialize_document None "a/b" 1 "" "" epoch)
     = doc_id (initialize_document None "a__b" 1 "" "" epoch).
Proof. split; [discriminate | reflexivity]. Qed.

(** C8, amended. Two distinct file paths in which no underscore is
    immediately followed by another underscore or by a path separator get
    distinct record ids. *)
Theorem initialize_document_id_injective :
  forall dep1 dep2 f1 f2 sz1 sz2 p1 p2 js1 js2 ts1 ts2,
    isolated_underscores f1 = true ->
    isolated_underscores f2 = true ->
    f1 <> f2 ->
    doc_id (initialize_document dep1 f1 sz1 p1 js1 ts1)
    <> doc_id (initialize_document dep2 f2 sz2 p2 js2 ts2).
Proof.
  intros * H1 H2 Hne Heq. rewrite !initialize_document_id in Heq.
  apply Hne. apply record_id_injective; assumption.
Qed.

Lemma initialize_document_id_injective_witness :
  isolated_underscores "in/a_b.pdf" = true
  /\ doc_id (initialize_document None "in/a_b.pdf" 1 "" "" epoch)
     <> doc_id (initialize_document None "in_a/b.pdf" 1 "" "" epoch).
Proof.
  split; [reflexivity|].
  apply initialize_document_id_injective;
    [reflexivity | reflexivity | discriminate].
Defined.

(** ** The state tracker touches two entries *)

Lemma append_eq_self (s t : string) : s +:+ t = s -> t = "".
Proof.
  induction s as [|c s IH]; simpl; intros H; [exact H|].
  injection H as H. auto.
Qed.

Lemma time_key_ne state_name : time_key state_name <> state_name.
Proof.
  unfold time_key. intros H. apply append_eq_self in H. discriminate.
Qed.

Lemma update_state_record E state_name state processing_time w :
  record (update_state E state_name state processing_time w).2
  = assign_state state_name state processing_time (record w).
Proof.
  unfold update_state, bind, modify_record, modify, upsert. simpl.
  destruct (upsert_item E _); reflexivity.
Qed.

(** C10. [update_state] assigns [state[state_name]] and, only when a
    duration is supplied, [state[state_name + "_time_seconds"]]; the id,
    properties, extracted data, model input, errors and every other entry
    of the state dictionary of the record are as before the call, whether
    or not the upsert succeeds. *)
Theorem update_state_frame :
  forall E state_name state processing_time w,
    let d := record w in
    let d' := record (update_state E state_name state processing_time w).2 in
    doc_id d' = doc_id d
    /\ doc_properties d' = doc_properties d
    /\ doc_extracted_data d' = doc_extracted_data d
    /\ doc_model_input d' = doc_model_input d
    /\ doc_errors d' = doc_errors d
    /\ doc_state d' !! state_name = Some (SFlag state)
    /\ (forall k, k <> state_name -> k <> time_key state_name ->
          doc_state d' !! k = doc_state d !! k)
    /\ match processing_time with
       | Some t => doc_state d' !! time_key state_name = Some (SSeconds t)
       | None =>
           doc_state d' !! time_key state_name
           = doc_state d !! time_key state_name
       end.
Proof.
  intros. subst d d'. rewrite update_state_record.
  pose proof (time_key_ne state_name) as Hne.
  unfold assign_state.
  destruct processing_time as [t|]; simpl;
    repeat split; try reflexivity; intros;
    by simplify_map_eq.
Qed.

(** ** The image reducer *)

Lemma reduce_images_loop_eq B imgs :
  reduce_images B imgs =
  match reduce_step B imgs with
  | Exit => Ok imgs
  | Next imgs' => reduce_images B imgs'
  | Abort e => Raise e
  end.
Proof.
  funelim (reduce_images B imgs);
    match goal with H : reduce_step _ _ = _ |- _ => by rewrite H end.
Qed.

Lemma size_nonneg imgs : 0 <= get_size_of_base64_images imgs.
Proof. induction imgs as [|i imgs IH]; simpl; lia. Qed.

Lemma size_app l1 l2 :
  get_size_of_base64_images (l1 ++ l2)
  = get_size_of_base64_images l1 + get_size_of_base64_images l2.
Proof. induction l1 as [|i l1 IH]; simpl; lia. Qed.

Lemma size_prefix l1 l2 :
  l1 `prefix_of` l2 ->
  get_size_of_base64_images l1 <= get_size_of_base64_images l2.
Proof.
  intros [k ->]. rewrite size_app. pose proof (size_nonneg k). lia.
Qed.

Lemma removelast_snoc {A} (l : list A) x : removelast (l ++ [x]) = l.
Proof. rewrite removelast_app by discriminate. simpl. apply app_nil_r. Qed.

Lemma pop_Some {A} (l l' : list A) :
  pop l = Some l' <-> exists x, l = l' ++ [x].
Proof.
  split.
  - destruct l as [|a l]; [discriminate|]. intros [= <-].
    exists (List.last (a :: l) a). apply app_removelast_last. discriminate.
  - intros [x ->]. destruct l' as [|a l']; [reflexivity|].
    change (Some (removelast ((a :: l') ++ [x])) = Some (a :: l')).
    by rewrite removelast_snoc.
Qed.

Lemma reduce_step_Next B imgs imgs' :
  reduce_step B imgs = Next imgs' <->
  B < get_size_of_base64_images imgs /\ exists x, imgs = imgs' ++ [x].
Proof.
  unfold reduce_step. rewrite <- pop_Some.
  destruct (Z.ltb_spec B (get_size_of_base64_images imgs)).
  - destruct (pop imgs); split.
    + intros [= ->]. auto.
    + intros [_ [= ->]]. reflexivity.
    + discriminate.
    + intros [_ [=]].
  - split; [discriminate | lia].
Qed.

Lemma reduce_step_Exit B imgs :
  reduce_step B imgs = Exit <-> get_size_of_base64_images imgs <= B.
Proof.
  unfold reduce_step.
  destruct (Z.ltb_spec B (get_size_of_base64_images imgs)).
  - destruct (pop imgs); split; try discriminate; lia.
  - split; [lia | reflexivity].
Qed.

Lemma reduce_step_Abort B imgs e :
  reduce_step B imgs = Abort e <-> B < 0 /\ imgs = [] /\ e = IndexError_pop.
Proof.
  unfold reduce_step.
  destruct (Z.ltb_spec B (get_size_of_base64_images imgs)).
  - destruct imgs as [|i imgs]; simpl in *.
    + split; [intros [= <-]; auto | intros (_ & _ & ->); reflexivity].
    + split; [discriminate | intros (_ & [=] & _)].
  - split; [discriminate|]. intros (? & -> & _). simpl in *. lia.
Qed.

Lemma reduce_step_shrinks B imgs imgs' :
  reduce_step B imgs = Next imgs' -> (length imgs' < length imgs)%nat.
Proof.
  intros H. apply reduce_step_Next in H. destruct H as [_ [x ->]].
  rewrite length_app. simpl. lia.
Qed.

(** [length imgs + 1] guard evaluations always suffice. *)
Lemma run_loop_reduce_images B : forall fuel imgs,
  (length imgs < fuel)%nat ->
  run_loop fuel B imgs = Some (reduce_images B imgs).
Proof.
  induction fuel as [|fuel IH]; intros imgs Hlen; [lia|].
  simpl. rewrite reduce_images_loop_eq.
  destruct (reduce_step B imgs) as [|imgs'|e] eqn:Hstep; try reflexivity.
  apply IH. apply reduce_step_shrinks in Hstep. lia.
Qed.

(** Induction along the iterations of the loop. *)
Lemma reduce_images_loop_ind B (P : list image -> result (list image) -> Prop) :
  (forall imgs, get_size_of_base64_images imgs <= B -> P imgs (Ok imgs)) ->
  (forall imgs x, B < get_size_of_base64_images (imgs ++ [x]) ->
     P imgs (reduce_images B imgs) -> P (imgs ++ [x]) (reduce_images B imgs)) ->
  (B < 0 -> P [] (Raise IndexError_pop)) ->
  forall imgs, P imgs (reduce_images B imgs).
Proof.
  intros HExit HNext HAbort imgs.
  induction imgs as [imgs IH] using (induction_ltof1 _ (@length image)).
  unfold ltof in IH. rewrite reduce_images_loop_eq.
  destruct (reduce_step B imgs) as [|imgs'|e] eqn:Hstep.
  - apply HExit. by apply reduce_step_Exit.
  - pose proof (reduce_step_shrinks _ _ _ Hstep) as Hlt.
    apply reduce_step_Next in Hstep. destruct Hstep as [Hover [x ->]].
    apply HNext; auto.
  - apply reduce_step_Abort in Hstep. destruct Hstep as (HB & -> & ->).
    auto.
Qed.

Lemma reduce_images_ok B imgs :
  0 <= B -> exists kept, reduce_images B imgs = Ok kept.
Proof.
  intros HB. pattern imgs, (reduce_images B imgs).
  apply reduce_images_loop_ind; [eauto | auto | lia].
Qed.

Lemma reduce_images_prefix B imgs kept :
  reduce_images B imgs = Ok kept -> kept `prefix_of` imgs.
Proof.
  revert kept. pattern imgs, (reduce_images B imgs).
  apply reduce_images_loop_ind.
  - intros l _ kept [= <-]. reflexivity.
  - intros l x _ IH kept Hk. by apply prefix_app_r, IH.
  - discriminate.
Qed.

Lemma reduce_images_within B imgs kept :
  reduce_images B imgs = Ok kept -> get_size_of_base64_images kept <= B.
Proof.
  revert kept. pattern imgs, (reduce_images B imgs).
  apply reduce_images_loop_ind.
  - intros l Hfit kept [= <-]. exact Hfit.
  - auto.
  - discriminate.
Qed.

(** The loop stops at the longest prefix that fits the budget. *)
Lemma reduce_images_longest B imgs kept p :
  reduce_images B imgs = Ok kept ->
  p `prefix_of` imgs -> get_size_of_base64_images p <= B ->
  p `prefix_of` kept.
Proof.
  revert kept. pattern imgs, (reduce_images B imgs).
  apply reduce_images_loop_ind.
  - intros l _ kept [= <-] Hp _. exact Hp.
  - intros l x Hover IH kept Hk Hp HB. apply IH; [exact Hk | | exact HB].
    destruct Hp as [k Hk']. destruct (decide (k = [])) as [->|Hne].
    + rewrite app_nil_r in Hk'. subst p. lia.
    + destruct (exists_last Hne) as (k' & y & ->).
      rewrite app_assoc in Hk'. apply app_inj_tail in Hk'.
      destruct Hk' as [-> _]. by exists k'.
  - discriminate.
Qed.

Lemma py_slice_to_prefix {A} (stop : Z) (l : list A) :
  py_slice_to stop l `prefix_of` l.
Proof.
  unfold py_slice_to. destruct (0 <=? stop);
    match goal with |- take ?n _ `prefix_of` _ =>
      exists (drop n l); symmetry; apply take_drop end.
Qed.

Lemma py_slice_to_length {A} (stop : Z) (l : list A) :
  0 <= stop ->
  length (py_slice_to stop l) = Nat.min (length l) (Z.to_nat stop).
Proof.
  intros H. unfold py_slice_to.
  destruct (Z.leb_spec 0 stop); [|lia]. rewrite length_take. lia.
Qed.

Lemma reduce_images_nil B : 0 <= B -> reduce_images B [] = Ok [].
Proof.
  intros HB. rewrite reduce_images_loop_eq. unfold reduce_step. simpl.
  destruct (Z.ltb_spec B 0); [lia | reflexivity].
Qed.

Lemma reduce_images_oversized B img :
  0 <= B -> B < Z.of_N (encoded_size img) -> reduce_images B [img] = Ok [].
Proof.
  intros HB Hbig. rewrite reduce_images_loop_eq. unfold reduce_step. simpl.
  destruct (Z.ltb_spec B (Z.of_N (encoded_size img) + 0)); [|lia].
  by apply reduce_images_nil.
Qed.

Lemma reduce_images_negative_budget B imgs :
  B < 0 -> reduce_images B imgs = Raise IndexError_pop.
Proof.
  intros HB. pattern imgs, (reduce_images B imgs).
  apply reduce_images_loop_ind; auto.
  intros l Hfit. pose proof (size_nonneg l). lia.
Qed.

Lemma load_all_length E : forall l loaded,
  load_all E l = Ok loaded -> length loaded = length l.
Proof.
  induction l as [|img l IH]; simpl; intros loaded H.
  - by injection H as <-.
  - destruct (load_image E img); [|discriminate].
    destruct (load_all E l) as [ys|]; [|discriminate].
    injection H as <-. simpl. f_equal. by apply IH.
Qed.

Lemma load_all_take E : forall l loaded n,
  load_all E l = Ok loaded -> load_all E (take n l) = Ok (take n loaded).
Proof.
  induction l as [|img l IH]; simpl; intros loaded n H.
  - injection H as <-. by destruct n.
  - destruct (load_image E img) as [y|] eqn:Himg; [|discriminate].
    destruct (load_all E l) as [ys|] eqn:Hl; [|discriminate].
    injection H as <-. destruct n as [|n]; [reflexivity|].
    simpl. rewrite Himg. by rewrite (IH ys n eq_refl).
Qed.

(** What the extraction call receives is the reduction of the loaded
    page images. *)
Lemma selected_limit_and_reduce E cfg pages loaded :
  load_all E pages = Ok loaded ->
  selected E cfg pages = limit_and_reduce cfg loaded.
Proof.
  intros H. unfold selected, limit_and_reduce, py_slice_to.
  rewrite (load_all_length _ _ _ H).
  destruct (0 <=? max_images cfg); by rewrite (load_all_take _ _ _ _ H).
Qed.

(** C3. On an ordered sequence of images with known encoded sizes, a
    maximum page count [max_images >= 0] and a budget of
    [gpt_vision_limit_mb >= 0] megabytes, the reduction (lines 91-98)
    returns a prefix of the input, of length at most
    [min (length imgs) max_images], whose total encoded size is within the
    budget, and returns the empty sequence when already the first image
    alone exceeds the budget. The result is a function of the inputs, and
    it is what [run_ocr_and_gpt] selects from the scratch pages these
    images were loaded from. On sizes 9, 6, 3, 8, 2 MB with
    [max_images = 10] and a 20 MB budget the result is the first three
    images. *)
Theorem limit_and_reduce_spec :
  forall config imgs,
    0 <= max_images config ->
    0 <= gpt_vision_limit_mb config ->
    (exists kept,
       limit_and_reduce config imgs = Ok kept
       /\ kept `prefix_of` imgs
       /\ (length kept
           <= Nat.min (length imgs) (Z.to_nat (max_images config)))%nat
       /\ get_size_of_base64_images kept <= max_size config
       /\ (forall first rest,
             imgs = first :: rest ->
             max_size config < Z.of_N (encoded_size first) ->
             kept = []))
    /\ (forall E pages,
          load_all E pages = Ok imgs ->
          selected E config pages = limit_and_reduce config imgs)
    /\ limit_and_reduce {| max_images := 10; gpt_vision_limit_mb := 20 |}
         [page "1" 9; page "2" 6; page "3" 3; page "4" 8; page "5" 2]
       = Ok [page "1" 9; page "2" 6; page "3" 3].
Proof.
  intros config imgs Hcount Hmb.
  split; [|split; [intros E pages; apply selected_limit_and_reduce
                  |exact ex_reduce]].
  assert (HB : 0 <= max_size config) by (unfold max_size; lia).
  unfold limit_and_reduce.
  destruct (reduce_images_ok (max_size config)
              (py_slice_to (max_images config) imgs) HB) as [kept Hk].
  exists kept. split; [exact Hk|].
  pose proof (reduce_images_prefix _ _ _ Hk) as Hpre.
  pose proof (reduce_images_within _ _ _ Hk) as Hfit.
  assert (Hpre' : kept `prefix_of` imgs)
    by (etrans; [exact Hpre | apply py_slice_to_prefix]).
  repeat split; [exact Hpre' | | exact Hfit |].
  - apply prefix_length in Hpre.
    rewrite py_slice_to_length in Hpre by exact Hcount. exact Hpre.
  - intros first rest -> Hbig. destruct kept as [|k kept]; [reflexivity|].
    destruct Hpre' as [tl Htl]. injection Htl as <- _.
    simpl in Hfit. pose proof (size_nonneg kept). lia.
Qed.

Lemma limit_and_reduce_spec_witness :
  0 <= 2
  /\ 0 <= 12
  /\ exists kept,
       limit_and_reduce {| max_images := 2; gpt_vision_limit_mb := 12 |}
         [page "1" 9; page "2" 6; page "3" 1] = Ok kept
       /\ get_size_of_base64_images kept <= 12 * 1024 * 1024.
Proof.
  split; [lia|]. split; [lia|].
  destruct (limit_and_reduce_spec
              {| max_images := 2; gpt_vision_limit_mb := 12 |}
              [page "1" 9; page "2" 6; page "3" 1])
    as [(kept & Hk & _ & _ & Hfit & _) _]; [simpl; lia | simpl; lia |].
  exists kept. split; [exact Hk | exact Hfit].
Defined.

(** C4. With a non-negative budget the loop at lines 97-98 terminates on
    every image sequence: an iteration that runs the body leaves strictly
    fewer images, [length imgs + 1] evaluations of the guard are enough
    for the loop to return a sequence, the empty input yields the empty
    sequence without error, and a single image over the budget yields the
    empty sequence. *)
Theorem reduce_images_terminates :
  forall B imgs,
    0 <= B ->
    (forall imgs',
       reduce_step B imgs = Next imgs' -> (length imgs' < length imgs)%nat)
    /\ (exists kept,
          run_loop (S (length imgs)) B imgs = Some (Ok kept)
          /\ reduce_images B imgs = Ok kept)
    /\ reduce_images B [] = Ok []
    /\ (forall img,
          B < Z.of_N (encoded_size img) -> reduce_images B [img] = Ok []).
Proof.
  intros B imgs HB. split; [|split; [|split]].
  - intros imgs'. apply reduce_step_shrinks.
  - destruct (reduce_images_ok B imgs HB) as [kept Hk]. exists kept.
    split; [|exact Hk]. rewrite run_loop_reduce_images by lia. by rewrite Hk.
  - by apply reduce_images_nil.
  - intros img. by apply reduce_images_oversized.
Qed.

Lemma reduce_images_terminates_witness :
  0 <= 5
  /\ reduce_images 5 [] = Ok []
  /\ reduce_images 5 [{| img_path := "/tmp/page1.jpeg"; encoded_size := 7 |}]
     = Ok [].
Proof.
  split; [lia|].
  destruct (reduce_images_terminates 5 [] ltac:(lia)) as (_ & _ & Hnil & Hbig).
  split; [exact Hnil | apply Hbig; simpl; lia].
Defined.

(** ** Scratch cleanup *)

Lemma remove_image_spec E img w :
  exists w',
    remove_image E img w
    = (match interrupts E img with Some e => Raise e | None => Ok tt end, w')
    /\ record w' = record w
    /\ container w' = container w
    /\ trace w' = trace w ++ [RemoveAttempted img]
    /\ tmp w' = surviving E [img] (tmp w)
    /\ log w' = log w ++ removal_line E img.
Proof.
  unfold remove_image, unlink, try_except, bind, emit, lift, modify,
    write_log, surviving, interrupts, removal_line. simpl.
  destruct (os_remove E img) as [|e]; simpl;
    [|destruct (is_Exception e); simpl];
    eexists; rewrite ?app_nil_r; repeat split; reflexivity.
Qed.

Lemma cleanup_spec E : forall l w,
  exists w',
    for_each (remove_image E) l w = (cleanup_outcome E l, w')
    /\ record w' = record w
    /\ container w' = container w
    /\ trace w' = trace w ++ map RemoveAttempted (attempted E l)
    /\ tmp w' = surviving E (attempted E l) (tmp w)
    /\ log w' = log w ++ cleanup_log E l.
Proof.
  unfold cleanup_log.
  induction l as [|img l IH]; intros w; simpl.
  - exists w. rewrite !app_nil_r. by repeat split.
  - destruct (remove_image_spec E img w)
      as (w1 & Hrun & Hr & Hc & Ht & Hs & Hl).
    unfold bind. rewrite Hrun.
    destruct (interrupts E img) as [e|].
    + exists w1. simpl. rewrite app_nil_r. by repeat split.
    + destruct (IH w1) as (w' & Hrun' & Hr' & Hc' & Ht' & Hs' & Hl').
      exists w'. rewrite Hrun'.
      rewrite Hr', Hc', Ht', Hs', Hl', Hr, Hc, Ht, Hs, Hl. simpl.
      rewrite <- !app_assoc. by repeat split.
Qed.

(** When no deletion raises outside [Exception], the loop gets to every
    page and ends normally. *)
Lemma attempted_all E l :
  (forall img e,
     img ∈ l -> os_remove E img = Raise e -> is_Exception e = true) ->
  attempted E l = l /\ cleanup_outcome E l = Ok tt.
Proof.
  induction l as [|img l IH]; intros Hall; [done|]. simpl.
  assert (Hi : interrupts E img = None).
  { unfold interrupts. destruct (os_remove E img) as [|e] eqn:Hrm; [done|].
    rewrite (Hall img e); [done | left | exact Hrm]. }
  rewrite Hi. destruct IH as [-> ->]; [|done].
  intros i e Hin. apply Hall. by right.
Qed.

Lemma attempted_prefix E l : attempted E l `prefix_of` l.
Proof.
  induction l as [|img l IH]; [done|]. simpl.
  destruct (interrupts E img).
  - by exists l.
  - by apply prefix_cons.
Qed.

(** A file that survives the loop was there before, and every attempt to
    delete a file of its path failed. *)
Lemma surviving_spec E : forall l t i,
  i ∈ surviving E l t ->
  i ∈ t
  /\ forall img, img ∈ l -> img_path img = img_path i ->
       exists e, os_remove E img = Raise e.
Proof.
  induction l as [|a l IH]; intros t i Hi; simpl in *.
  - split; [exact Hi|]. intros img Himg. by apply elem_of_nil in Himg.
  - apply IH in Hi. destruct Hi as [Hi Hl].
    destruct (os_remove E a) as [u|e] eqn:Hrm.
    + apply list_elem_of_filter in Hi. destruct Hi as [Hne Hi].
      split; [exact Hi|]. intros img Himg Hp.
      apply elem_of_cons in Himg. destruct Himg as [->|Himg]; [|eauto].
      congruence.
    + split; [exact Hi|]. intros img Himg Hp.
      apply elem_of_cons in Himg. destruct Himg as [->|Himg]; eauto.
Qed.

Lemma map_m_load E : forall l w,
  map_m (fun img => lift (load_image E img)) l w = (load_all E l, w).
Proof.
  induction l as [|img l IH]; intros w; [reflexivity|].
  simpl. unfold bind, lift at 1.
  destruct (load_image E img); [|reflexivity].
  rewrite IH. destruct (load_all E l); reflexivity.
Qed.

(** ** The shapes of a run of [run_ocr_and_gpt] *)

Ltac shape_done :=
  eauto; simpl; rewrite <- ?app_assoc; try reflexivity.

Lemma run_ocr_and_gpt_shape E f p js cfg w :
  run_shape E f p js cfg w
    (run_ocr_and_gpt E f p js cfg w).1 (run_ocr_and_gpt E f p js cfg w).2.
Proof.
  unfold run_ocr_and_gpt, update_state, rasterize, glob_pages, call, now, get,
    modify_record, modify, emit, lift, ret, raise, upsert, bind.
  simpl.
  destruct (get_ocr_results E f) as [ocr|e] eqn:Hocr; simpl.
  2:{ eapply run_ocr_failed; shape_done. }
  rewrite Z.add_simpl_l.
  fold (after_ocr E (record w)).
  destruct (upsert_item E (after_ocr E (record w))) as [[]|e] eqn:Hup1; simpl.
  2:{ eapply run_ocr_unsaved; shape_done. }
  pose proof (eq_refl : rasterized E f w = (extract_images_from_pdf E f (tmp w)).2) as Hras.
  destruct (extract_images_from_pdf E f (tmp w)) as [[[]|e] t1]; simpl in *.
  2:{ eapply run_preparation_failed; shape_done. }
  destruct (makedirs E "/tmp/") as [[]|e]; simpl.
  2:{ eapply run_preparation_failed; shape_done. }
  match goal with |- context [map_m ?g ?l ?w1] =>
    replace (map_m g l w1) with (load_all E l, w1)
      by (symmetry; apply map_m_load) end.
  assert (Hsel : selected E cfg t1
                 = match load_all E (py_slice_to (max_images cfg) t1) with
                   | Ok loaded => reduce_images (max_size cfg) loaded
                   | Raise e => Raise e
                   end) by reflexivity.
  destruct (load_all E (py_slice_to (max_images cfg) t1)) as [loaded|e]; simpl.
  2:{ eapply run_preparation_failed; shape_done. }
  destruct (reduce_images (max_size cfg) loaded) as [imgs|e]; simpl.
  2:{ eapply run_preparation_failed; shape_done. }
  rewrite <- Hras in Hsel.
  destruct (get_structured_data E (content ocr) p js imgs) as [reply|e] eqn:Hext; simpl.
  2:{ eapply run_extraction_failed; shape_done. }
  rewrite Z.add_simpl_l.
  fold (after_ocr E (record w)). fold (after_extraction E (record w)).
  destruct (upsert_item E (after_extraction E (record w))) as [[]|e] eqn:Hup2; simpl.
  2:{ eapply run_extraction_unsaved; shape_done. }
  match goal with |- context [for_each (remove_image E) t1 ?w3] =>
    destruct (cleanup_spec E t1 w3) as (w' & Hrun & Hr & Hc & Ht & Hs & Hl);
    rewrite Hrun end.
  simpl in *.
  destruct (cleanup_outcome E t1) as [[]|e] eqn:Hclean; simpl;
    [destruct (parse_json_markdown E (content reply)) as [x|e] eqn:Hparse;
     simpl|];
    (eapply run_cleaned with (imgs := imgs) (reply := reply) (ocr := ocr);
     try exact Hsel; rewrite ?Hras, ?Hclean, ?Hparse; eauto;
     rewrite Ht, <- !app_assoc; reflexivity).
Qed.

(** ** The shapes of a run of [process_gpt_summary] *)

Lemma process_gpt_summary_shape E resp w :
  summary_shape E resp w
    (process_gpt_summary E resp w).1 (process_gpt_summary E resp w).2.
Proof.
  unfold process_gpt_summary, get_categorization, update_state, call, now, get,
    modify_record, modify, emit, write_log, lift, ret, raise, upsert,
    try_except, bind.
  assert (Hlog : probe_log resp
                 = match categorization resp with
                   | Some _ => []
                   | None => [(WARNING, categorization_warning)]
                   end) by reflexivity.
  assert (Hcls : forall d s,
            with_summary resp s d
            = set_gpt_summary_output (content s)
                (set_classification (default "N/A" (categorization resp)) d))
    by reflexivity.
  destruct (categorization resp) as [c|]; simpl;
    (destruct (get_summary_with_gpt E resp) as [s|e] eqn:Hsum; simpl;
     [ rewrite Z.add_simpl_l; fold (after_summary E (record w));
       destruct (upsert_item E (after_summary E (record w)))
         as [[]|e] eqn:Hup; simpl;
       [ eapply summary_done; shape_done;
         rewrite ?Hlog, ?Hcls, ?app_nil_r; reflexivity
       | destruct (is_Exception e) eqn:Hexc; simpl;
         [ fold (summary_error e (after_summary E (record w)));
           destruct (upsert_item E
                       (summary_error e (after_summary E (record w))))
             as [[]|e'] eqn:Hup'; simpl;
           (eapply summary_unsaved; shape_done;
            unfold reraise, acknowledged; rewrite ?Hlog, ?Hup', ?app_nil_r;
            reflexivity)
         | eapply summary_unsaved_interrupted; shape_done;
           rewrite ?Hlog, ?app_nil_r; reflexivity ] ]
     | destruct (is_Exception e) eqn:Hexc; simpl;
       [ fold (summary_error e (record w));
         destruct (upsert_item E (summary_error e (record w)))
           as [[]|e'] eqn:Hup'; simpl;
         (eapply summary_failed; shape_done;
          unfold reraise, acknowledged; rewrite ?Hlog, ?Hup', ?app_nil_r;
          reflexivity)
       | eapply summary_interrupted; shape_done;
         rewrite ?Hlog, ?app_nil_r; reflexivity ] ]).
Qed.

(** ** The summary stage *)

Lemma summary_error_errors e d :
  doc_errors (summary_error e d)
  = doc_errors d ++ ["NL processing error: " +:+ exn_str e].
Proof. reflexivity. Qed.

Lemma summary_error_flag e d :
  doc_state (summary_error e d) !! "gpt_summary_completed" = Some (SFlag false).
Proof. unfold summary_error, assign_state. simpl. by simplify_map_eq. Qed.

Lemma summary_error_extracted_data e d :
  doc_extracted_data (summary_error e d) = doc_extracted_data d.
Proof. reflexivity. Qed.

Lemma after_summary_flag E d :
  doc_state (after_summary E d) !! "gpt_summary_completed" = Some (SFlag true).
Proof.
  unfold after_summary, assign_state, time_key. simpl. by simplify_map_eq.
Qed.

Lemma reraise_raises E e d : exists e', reraise E e d = Raise e'.
Proof. unfold reraise. destruct (upsert_item E d); eauto. Qed.

(** C6, as stated, fails: the summarization call fails, the handler's
    own upsert is rejected by the store, and what reaches the caller is
    the store's exception, not the summarization failure. *)
Lemma summary_failure_store_error_raised :
  get_summary_with_gpt summary_and_store_down no_category
  = Raise ServiceUnavailable
  /\ (process_gpt_summary summary_and_store_down no_category
        (fresh_world invoice [])).1 = Raise StoreDown
  /\ StoreDown <> ServiceUnavailable.
Proof. split; [reflexivity|]. split; [reflexivity | discriminate]. Qed.

(** C6, amended. When the summarization capability call fails with an
    exception [e] that derives from [Exception], [process_gpt_summary]
    appends the one string ["NL processing error: " + str(e)] to the
    record's errors, sets [gpt_summary_completed] to false and leaves the
    extracted data of the record as it was; it then re-raises [e] when
    the handler's upsert of the record is accepted by the store, and
    raises the store's exception when that upsert fails. A failure that
    does not derive from [Exception] reaches the caller with the record
    untouched. *)
Theorem summary_failure_recorded_and_reraised :
  forall E resp w e,
    get_summary_with_gpt E resp = Raise e ->
    let out := process_gpt_summary E resp w in
    (is_Exception e = true ->
     doc_errors (record out.2)
     = doc_errors (record w) ++ ["NL processing error: " +:+ exn_str e]
     /\ String.prefix "NL processing error:"
          ("NL processing error: " +:+ exn_str e) = true
     /\ doc_state (record out.2) !! "gpt_summary_completed"
        = Some (SFlag false)
     /\ doc_extracted_data (record out.2) = doc_extracted_data (record w)
     /\ (upsert_item E (record out.2) = Ok tt -> out.1 = Raise e)
     /\ (forall e',
           upsert_item E (record out.2) = Raise e' -> out.1 = Raise e'))
    /\ (is_Exception e = false ->
        out.1 = Raise e /\ record out.2 = record w).
Proof.
  intros E resp w e Hfail out. subst out.
  pose proof (process_gpt_summary_shape E resp w) as Hshape.
  destruct (process_gpt_summary E resp w) as [r w']. simpl in *.
  destruct Hshape as
    [e0 w' Hsum Hexc Hrec _ _
    |e0 r w' Hsum Hexc Hr Hrec _ _
    | | |]; try congruence;
    assert (e0 = e) as -> by congruence;
    (split; [|intros Hno; try congruence; by split]); intros Hyes.
  - congruence.
  - rewrite Hrec. repeat split.
    + apply summary_error_flag.
    + intros Hup. subst r. unfold reraise. by rewrite Hup.
    + intros e' Hup. subst r. unfold reraise. by rewrite Hup.
Qed.

Lemma summary_failure_recorded_and_reraised_witness :
  get_summary_with_gpt summary_down no_category = Raise ServiceUnavailable
  /\ is_Exception ServiceUnavailable = true
  /\ doc_errors
       (record (process_gpt_summary summary_down no_category
                  (fresh_world invoice [])).2)
     = [] ++ ["NL processing error: 503 Service Unavailable"]
  /\ (process_gpt_summary summary_down no_category (fresh_world invoice [])).1
     = Raise ServiceUnavailable.
Proof.
  split; [reflexivity|]. split; [reflexivity|].
  destruct (summary_failure_recorded_and_reraised summary_down no_category
              (fresh_world invoice []) ServiceUnavailable eq_refl)
    as [Hrec _].
  destruct (Hrec eq_refl) as (Herr & _ & _ & _ & Hraise & _).
  split; [exact Herr | apply Hraise; reflexivity].
Defined.

(** C7. When the extraction result has no [categorization] attribute, the
    summary stage logs one warning and goes on: with the summarization
    call and the upsert succeeding it returns normally and the record's
    classification is ["N/A"]; and any exception that does leave the stage
    was raised by the summarization capability or by the store, never by
    the missing field. *)
Theorem missing_categorization_defaults :
  forall E resp w,
    categorization resp = None ->
    let out := process_gpt_summary E resp w in
    log out.2 = log w ++ [(WARNING, categorization_warning)]
    /\ (forall s,
          get_summary_with_gpt E resp = Ok s ->
          upsert_item E (after_summary E (record w)) = Ok tt ->
          out.1 = Ok tt
          /\ classification (doc_extracted_data (record out.2)) = "N/A")
    /\ (forall e,
          out.1 = Raise e ->
          get_summary_with_gpt E resp = Raise e
          \/ exists d, upsert_item E d = Raise e).
Proof.
  intros E resp w Hcat out. subst out.
  pose proof (process_gpt_summary_shape E resp w) as Hshape.
  destruct (process_gpt_summary E resp w) as [r w']. simpl in *.
  assert (Hprobe : probe_log resp = [(WARNING, categorization_warning)])
    by (unfold probe_log; by rewrite Hcat).
  destruct Hshape as
    [e0 w' Hsum Hexc Hrec Hlog _
    |e0 r w' Hsum Hexc Hr Hrec Hlog _
    |s0 e0 w' Hsum Hup Hexc Hrec Hlog _
    |s0 e0 r w' Hsum Hup Hexc Hr Hrec Hlog _
    |s0 w' Hsum Hup Hrec Hlog _];
    rewrite Hlog, Hprobe; (split; [reflexivity|]); split.
  - intros s Hs. congruence.
  - intros e [= <-]. by left.
  - intros s Hs. congruence.
  - intros e He. subst r. unfold reraise in He.
    destruct (upsert_item E (summary_error _ _)) eqn:Hup';
      injection He as <-; eauto.
  - intros s Hs Hok. congruence.
  - intros e [= <-]. right. eauto.
  - intros s Hs Hok. congruence.
  - intros e He. subst r. unfold reraise in He. right.
    destruct (upsert_item E (summary_error _ _)) eqn:Hup';
      injection He as <-; eauto.
  - intros s Hs _. split; [reflexivity|]. rewrite Hrec.
    unfold with_summary. rewrite Hcat. reflexivity.
  - discriminate.
Qed.

Lemma missing_categorization_defaults_witness :
  categorization no_category = None
  /\ (process_gpt_summary (healthy "```json {}```") no_category
        (fresh_world invoice [])).1 = Ok tt
  /\ classification
       (doc_extracted_data
          (record (process_gpt_summary (healthy "```json {}```") no_category
                     (fresh_world invoice [])).2)) = "N/A".
Proof.
  split; [reflexivity|].
  destruct (missing_categorization_defaults (healthy "```json {}```")
              no_category (fresh_world invoice []) eq_refl)
    as (_ & Hok & _).
  apply (Hok {| content := "An invoice." |}); reflexivity.
Defined.

(** ** Flags and history of [run_ocr_and_gpt] *)

Lemma after_ocr_flag E d :
  doc_state (after_ocr E d) !! "ocr_completed" = Some (SFlag true).
Proof. unfold after_ocr, assign_state, time_key. simpl. by simplify_map_eq. Qed.

Lemma after_ocr_extraction_flag E d :
  doc_state (after_ocr E d) !! "gpt_extraction_completed"
  = doc_state d !! "gpt_extraction_completed".
Proof. unfold after_ocr, assign_state, time_key. simpl. by simplify_map_eq. Qed.

Lemma after_extraction_flag E d :
  doc_state (after_extraction E d) !! "gpt_extraction_completed"
  = Some (SFlag true).
Proof.
  unfold after_extraction, assign_state, time_key. simpl. by simplify_map_eq.
Qed.

Lemma after_extraction_ocr_flag E d :
  doc_state (after_extraction E d) !! "ocr_completed" = Some (SFlag true).
Proof.
  unfold after_extraction, after_ocr, assign_state, time_key. simpl.
  by simplify_map_eq.
Qed.

Lemma returned_app s t l : returned s (t ++ l) = returned s t || returned s l.
Proof. apply existsb_app. Qed.

Lemma failed_app s t l : failed s (t ++ l) = failed s t || failed s l.
Proof. apply existsb_app. Qed.

Lemma removal_app t l :
  existsb is_removal (t ++ l) = existsb is_removal t || existsb is_removal l.
Proof. apply existsb_app. Qed.

Lemma returned_removals s l : returned s (map RemoveAttempted l) = false.
Proof. induction l; [reflexivity | exact IHl]. Qed.

Lemma failed_removals s l : failed s (map RemoveAttempted l) = false.
Proof. induction l; [reflexivity | exact IHl]. Qed.




Ltac run_cases H :=
  destruct H as
    [e w' Hocr Hrec Hcon Htmp Hlog Htr
    |ocr e w' Hocr Hup Hrec Hcon Htmp Hlog Htr
    |ocr e w' Hocr Hrec Hcon Htmp Hlog Htr
    |ocr imgs e w' Hocr Hsel Hext Hrec Hcon Htmp Hlog Htr
    |ocr imgs reply e w' Hocr Hsel Hext Hup Hrec Hcon Htmp Hlog Htr
    |ocr imgs reply r w' Hocr Hsel Hext Hup Hrec Hcon Htmp Hlog Htr Hr];
  rewrite ?Hrec, ?Htr, ?Htmp, ?Hlog.

Ltac summary_cases H :=
  destruct H as
    [es ws Hsum Hexc Hrec Hlog Htr
    |es rs ws Hsum Hexc Hrs Hrec Hlog Htr
    |ms es ws Hsum Hup Hexc Hrec Hlog Htr
    |ms es rs ws Hsum Hup Hexc Hrs Hrec Hlog Htr
    |ms ws Hsum Hup Hrec Hlog Htr];
  rewrite ?Hrec, ?Htr, ?Hlog.



Ltac history :=
  rewrite ?returned_app, ?failed_app, ?removal_app, ?returned_removals,
    ?failed_removals;
  simpl.



(** ** Failures of the OCR and extraction calls *)

(** C2, as stated, fails: when the OCR call fails, and when the
    extraction call fails, the exception reaches the caller and the
    record's errors are still empty. *)
Lemma capability_failure_not_recorded :
  (run_on ocr_down).1 = Raise ServiceUnavailable
  /\ doc_errors (record (run_on ocr_down).2) = []
  /\ (run_on extraction_down).1 = Raise ServiceUnavailable
  /\ doc_errors (record (run_on extraction_down).2) = [].
Proof. vm_compute. repeat split; reflexivity. Qed.

(** C2, amended. When the summary stage's work fails with an exception
    deriving from [Exception] (the summarization call raises it, or the
    state update after the call does), [process_gpt_summary] has appended
    the entry ["NL processing error: ..."] for it to the record's errors
    and set [gpt_summary_completed] to false when an exception reaches
    the caller, and that exception is the stage's failure itself once the
    handler's upsert is accepted. When the OCR call fails in
    [run_ocr_and_gpt], its exception reaches the caller and the record is
    untouched; when the extraction call fails, its exception reaches the
    caller with the record's errors and its [gpt_extraction_completed]
    entry as they were before the run. *)
Theorem stage_failures_and_the_record :
  forall E f p js cfg resp w,
    failed OCR (trace w) = false ->
    failed Extraction (trace w) = false ->
    let run := run_ocr_and_gpt E f p js cfg w in
    let sum := process_gpt_summary E resp w in
    (forall e,
       get_summary_with_gpt E resp = Raise e ->
       is_Exception e = true ->
       (exists e', sum.1 = Raise e')
       /\ doc_errors (record sum.2)
          = doc_errors (record w) ++ ["NL processing error: " +:+ exn_str e]
       /\ doc_state (record sum.2) !! "gpt_summary_completed"
          = Some (SFlag false)
       /\ (upsert_item E (record sum.2) = Ok tt -> sum.1 = Raise e))
    /\ (forall s e,
          get_summary_with_gpt E resp = Ok s ->
          upsert_item E (after_summary E (record w)) = Raise e ->
          is_Exception e = true ->
          (exists e', sum.1 = Raise e')
          /\ doc_errors (record sum.2)
             = doc_errors (record w)
               ++ ["NL processing error: " +:+ exn_str e]
          /\ doc_state (record sum.2) !! "gpt_summary_completed"
             = Some (SFlag false)
          /\ (upsert_item E (record sum.2) = Ok tt -> sum.1 = Raise e))
    /\ (failed OCR (trace run.2) = true ->
        exists e,
          get_ocr_results E f = Raise e
          /\ run.1 = Raise e
          /\ record run.2 = record w)
    /\ (failed Extraction (trace run.2) = true ->
        exists ocr imgs e,
          get_ocr_results E f = Ok ocr
          /\ selected E cfg (rasterized E f w) = Ok imgs
          /\ get_structured_data E (content ocr) p js imgs = Raise e
          /\ run.1 = Raise e
          /\ doc_errors (record run.2) = doc_errors (record w)
          /\ doc_state (record run.2) !! "gpt_extraction_completed"
             = doc_state (record w) !! "gpt_extraction_completed").
Proof.
  intros E f p js cfg resp w Hfo Hfe run sum. subst run sum.
  pose proof (run_ocr_and_gpt_shape E f p js cfg w) as Hrun.
  pose proof (process_gpt_summary_shape E resp w) as Hsum.
  destruct (run_ocr_and_gpt E f p js cfg w) as [r w1].
  destruct (process_gpt_summary E resp w) as [r2 w2]. simpl in *.
  split; [|split; [|split]].
  - intros e0 He0 Hexc0. summary_cases Hsum; try congruence.
    assert (es = e0) as -> by congruence.
    rewrite summary_error_flag, summary_error_errors. subst rs.
    split; [apply reraise_raises|]. repeat split.
    intros Hup. unfold reraise. by rewrite Hup.
  - intros s0 e0 Hs0 Hup0 Hexc0. summary_cases Hsum; try congruence.
    assert (es = e0) as -> by congruence.
    rewrite summary_error_flag, summary_error_errors. subst rs.
    split; [apply reraise_raises|]. repeat split.
    intros Hup'. unfold reraise. by rewrite Hup'.
  - run_cases Hrun; history; rewrite Hfo; simpl; try discriminate.
    intros _. eauto.
  - run_cases Hrun; rewrite ?after_ocr_extraction_flag; history;
      rewrite Hfe; simpl; try discriminate.
    intros _. exists ocr, imgs, e. auto 10.
Qed.

Lemma stage_failures_and_the_record_witness :
  failed OCR (trace (fresh_world invoice [])) = false
  /\ (run_on ocr_down).1 = Raise ServiceUnavailable
  /\ record (run_on ocr_down).2 = invoice.
Proof.
  split; [reflexivity|].
  destruct (stage_failures_and_the_record ocr_down
              "/tmp/in/invoice.pdf" "Extract the fields" "{}" default_config
              no_category (fresh_world invoice []) eq_refl eq_refl)
    as (_ & _ & Hocr & _).
  destruct (Hocr eq_refl) as (e & Hfail & Hraise & Hrec).
  injection Hfail as <-. split; [exact Hraise | exact Hrec].
Defined.

(** ** Scratch images *)





(** ** More concrete inputs *)

Example ex_summary_interrupted :
  (process_gpt_summary summary_interrupted_env no_category
     (fresh_world invoice [])).1 = Raise KeyboardInterrupt
  /\ record (process_gpt_summary summary_interrupted_env no_category
               (fresh_world invoice [])).2 = invoice.
Proof. split; reflexivity. Qed.

Example ex_removal_interrupted :
  (run_on removal_interrupted_env).1 = Raise KeyboardInterrupt
  /\ tmp (run_on removal_interrupted_env).2 = [page "1" 1; page "2" 1]
  /\ filter (fun ev => is_removal ev = true)
       (trace (run_on removal_interrupted_env).2)
     = [RemoveAttempted (page "1" 1)]
  /\ log (run_on removal_interrupted_env).2 = [].
Proof. vm_compute. repeat split; reflexivity. Qed.

Example ex_dirname :
  posix_dirname "/tmp/in/a.pdf" = "/tmp/in"
  /\ posix_dirname "/tmp/a.pdf" = "/tmp"
  /\ posix_dirname "/a.pdf" = "/"
  /\ posix_dirname "a.pdf" = ""
  /\ posix_dirname "/tmp//a.pdf" = "/tmp"
  /\ posix_dirname "//a" = "//"
  /\ posix_dirname "/tmp/in/" = "/tmp/in".
Proof. repeat split; reflexivity. Qed.

Example ex_join :
  posix_join "/tmp" "in/a.pdf" = "/tmp/in/a.pdf"
  /\ posix_join "/tmp/" "a.pdf" = "/tmp/a.pdf"
  /\ posix_join "/tmp" "/etc/a.pdf" = "/etc/a.pdf"
  /\ posix_join "" "a.pdf" = "a.pdf"
  /\ posix_join "/tmp" "" = "/tmp/".
Proof. repeat split; reflexivity. Qed.

Example ex_write_blob :
  write_blob_to_temp_file linux {| name := "in/a.pdf"; read := Ok "%PDF" |} []
  = (Ok "/tmp/in/a.pdf",
     [MakeDirs "/tmp/in"; WriteFile "/tmp/in/a.pdf" "%PDF"]).
Proof. reflexivity. Qed.

(** ** The state tracker and the store *)

Lemma update_state_run E n b t w :
  update_state E n b t w
  = match upsert_item E (assign_state n b t (record w)) with
    | Ok _ =>
        (Ok tt,
         with_trace (trace w ++ [Upserted (assign_state n b t (record w))])
           (with_container
              (<[doc_id (record w) := assign_state n b t (record w)]>
                 (container w))
              (with_record (assign_state n b t (record w)) w)))
    | Raise e => (Raise e, with_record (assign_state n b t (record w)) w)
    end.
Proof.
  unfold update_state, bind, modify_record, modify, upsert. simpl.
  destruct t; reflexivity.
Qed.

(** X1. When the store accepts the upsert, [update_state] returns
    normally, the store holds under the record's id exactly the in-memory
    record (flag and duration included), and the entries of the store
    under every other id are as before. *)
Theorem update_state_stores_record :
  forall E state_name state processing_time w,
    upsert_item E
      (assign_state state_name state processing_time (record w)) = Ok tt ->
    let out := update_state E state_name state processing_time w in
    out.1 = Ok tt
    /\ container out.2 !! doc_id (record out.2) = Some (record out.2)
    /\ (forall k, k <> doc_id (record w) ->
          container out.2 !! k = container w !! k).
Proof.
  intros E n b t w Hup out. subst out. rewrite update_state_run, Hup. simpl.
  split; [reflexivity|]. split.
  - replace (doc_id (assign_state n b t (record w))) with (doc_id (record w))
      by (destruct t; reflexivity).
    apply lookup_insert_eq.
  - intros k Hk. by apply lookup_insert_ne.
Qed.

Lemma update_state_stores_record_witness :
  upsert_item accepting
    (assign_state "file_landed" true None (record (fresh_world invoice [])))
  = Ok tt
  /\ container (update_state accepting "file_landed" true None
                  (fresh_world invoice [])).2 !! "in__invoice.pdf"
     = Some (assign_state "file_landed" true None invoice).
Proof.
  split; [reflexivity|].
  destruct (update_state_stores_record accepting "file_landed" true None
              (fresh_world invoice []) eq_refl) as (_ & Hstored & _).
  exact Hstored.
Defined.

(** X2. When the store rejects the upsert, [update_state] raises the
    store's exception and the store is unchanged, while the in-memory
    record already carries the new flag: memory and store disagree until
    a later upsert succeeds. *)
Theorem update_state_rejected :
  forall E state_name state processing_time w e,
    upsert_item E
      (assign_state state_name state processing_time (record w)) = Raise e ->
    let out := update_state E state_name state processing_time w in
    out.1 = Raise e
    /\ container out.2 = container w
    /\ trace out.2 = trace w
    /\ doc_state (record out.2) !! state_name = Some (SFlag state).
Proof.
  intros E n b t w e Hup out. subst out. rewrite update_state_run, Hup. simpl.
  repeat split. unfold assign_state.
  pose proof (time_key_ne n).
  destruct t; simpl; by simplify_map_eq.
Qed.

Lemma update_state_rejected_witness :
  upsert_item store_down
    (assign_state "file_landed" true None (record (fresh_world invoice [])))
  = Raise StoreDown
  /\ container (update_state store_down "file_landed" true None
                  (fresh_world invoice [])).2 = ∅
  /\ doc_state (record (update_state store_down "file_landed" true None
                          (fresh_world invoice [])).2) !! "file_landed"
     = Some (SFlag true).
Proof.
  split; [reflexivity|].
  destruct (update_state_rejected store_down "file_landed" true None
              (fresh_world invoice []) StoreDown eq_refl)
    as (_ & Hstore & _ & Hflag).
  split; [exact Hstore | exact Hflag].
Defined.

(** X3. A later [update_state] on the same stage without a duration
    overwrites the flag (also from true back to false) but leaves the
    duration recorded by the earlier call in place. *)
Theorem update_state_keeps_earlier_duration :
  forall E state_name state1 state2 t w,
    let w1 := (update_state E state_name state1 (Some t) w).2 in
    let w2 := (update_state E state_name state2 None w1).2 in
    doc_state (record w2) !! state_name = Some (SFlag state2)
    /\ doc_state (record w2) !! time_key state_name = Some (SSeconds t).
Proof.
  intros E n b1 b2 t w w1 w2. subst w1 w2. rewrite !update_state_record.
  pose proof (time_key_ne n). unfold assign_state. simpl.
  split; by simplify_map_eq.
Qed.

(** ** Record ids once more *)

Lemma record_id_fixed s :
  contains_char path_separator s = false -> record_id s = s.
Proof.
  induction s as [|c s IH]; [reflexivity|]. simpl. rewrite record_id_cons.
  destruct (Ascii.eqb c path_separator); [discriminate|].
  intros H. by rewrite IH.
Qed.

(** X4. Deriving an id from a file name that is itself an id gives the
    same id back, and a file name is its own id exactly when it contains
    no path separator. *)
Theorem initialize_document_id_idempotent :
  forall dep file_name file_size prompt json_schema ts,
    let id := doc_id (initialize_document dep file_name file_size prompt
                        json_schema ts) in
    doc_id (initialize_document dep id file_size prompt json_schema ts) = id
    /\ (id = file_name <-> contains_char path_separator file_name = false).
Proof.
  intros dep f sz p js ts id. subst id. rewrite !initialize_document_id.
  split.
  - apply record_id_fixed, record_id_separator_free.
  - split.
    + intros <-. apply record_id_separator_free.
    + apply record_id_fixed.
Qed.

(** ** More on the image reducer *)

(** X5. The reduction keeps as many leading images as fit: every prefix
    of the count-limited sequence whose total encoded size is within the
    budget is a prefix of the result. *)
Theorem limit_and_reduce_keeps_longest_prefix :
  forall config imgs kept p,
    limit_and_reduce config imgs = Ok kept ->
    p `prefix_of` py_slice_to (max_images config) imgs ->
    get_size_of_base64_images p <= max_size config ->
    p `prefix_of` kept.
Proof.
  intros config imgs kept p Hk Hp Hfit.
  eapply reduce_images_longest; eauto.
Qed.

Lemma limit_and_reduce_keeps_longest_prefix_witness :
  limit_and_reduce default_config [page "1" 9; page "2" 6; page "3" 8]
  = Ok [page "1" 9; page "2" 6]
  /\ [page "1" 9] `prefix_of` [page "1" 9; page "2" 6].
Proof.
  split; [vm_compute; reflexivity|].
  apply (limit_and_reduce_keeps_longest_prefix default_config
           [page "1" 9; page "2" 6; page "3" 8]).
  - vm_compute. reflexivity.
  - exists [page "2" 6; page "3" 8]. reflexivity.
  - vm_compute. discriminate.
Defined.

(** X6. With a negative size limit the loop can never be satisfied: it
    pops until the list is empty and the next [pop()] raises
    [IndexError], whatever the images are. *)
Theorem limit_and_reduce_negative_limit :
  forall config imgs,
    gpt_vision_limit_mb config < 0 ->
    limit_and_reduce config imgs = Raise IndexError_pop.
Proof.
  intros config imgs Hneg. apply reduce_images_negative_budget.
  unfold max_size. lia.
Qed.

Lemma limit_and_reduce_negative_limit_witness :
  -1 < 0
  /\ limit_and_reduce {| max_images := 10; gpt_vision_limit_mb := -1 |}
       [page "1" 9] = Raise IndexError_pop.
Proof.
  split; [lia|].
  apply (limit_and_reduce_negative_limit
           {| max_images := 10; gpt_vision_limit_mb := -1 |}).
  simpl. lia.
Defined.

(** X7. When the count-limited images already fit the budget, none is
    dropped: the result is the slice [imgs[:max_images]] itself. *)
Theorem limit_and_reduce_within_budget :
  forall config imgs,
    get_size_of_base64_images (py_slice_to (max_images config) imgs)
    <= max_size config ->
    limit_and_reduce config imgs
    = Ok (py_slice_to (max_images config) imgs).
Proof.
  intros config imgs Hfit. unfold limit_and_reduce.
  rewrite reduce_images_loop_eq.
  apply reduce_step_Exit in Hfit. by rewrite Hfit.
Qed.

Lemma limit_and_reduce_within_budget_witness :
  limit_and_reduce {| max_images := 2; gpt_vision_limit_mb := 20 |}
    [page "1" 9; page "2" 6; page "3" 8]
  = Ok [page "1" 9; page "2" 6].
Proof.
  apply (limit_and_reduce_within_budget
           {| max_images := 2; gpt_vision_limit_mb := 20 |}
           [page "1" 9; page "2" 6; page "3" 8]).
  vm_compute. discriminate.
Defined.

(** ** Whole runs of [run_ocr_and_gpt] *)

Lemma new_events_app w w' l : trace w' = trace w ++ l -> new_events w w' = l.
Proof. intros H. unfold new_events. rewrite H. apply drop_app_length. Qed.

Ltac run_new_cases H :=
  destruct H as
    [e w' Hocr Hrec Hcon Htmp Hlog Htr
    |ocr e w' Hocr Hup Hrec Hcon Htmp Hlog Htr
    |ocr e w' Hocr Hrec Hcon Htmp Hlog Htr
    |ocr imgs e w' Hocr Hsel Hext Hrec Hcon Htmp Hlog Htr
    |ocr imgs reply e w' Hocr Hsel Hext Hup Hrec Hcon Htmp Hlog Htr
    |ocr imgs reply r w' Hocr Hsel Hext Hup Hrec Hcon Htmp Hlog Htr Hr];
  try rewrite (new_events_app _ _ _ Htr); rewrite ?Hrec, ?Hcon, ?Htmp.

Lemma after_ocr_time E d :
  doc_state (after_ocr E d) !! "ocr_completed_time_seconds"
  = Some (SSeconds (latency E OCR)).
Proof. unfold after_ocr, assign_state, time_key. simpl. by simplify_map_eq. Qed.

Lemma after_extraction_time E d :
  doc_state (after_extraction E d) !! "gpt_extraction_completed_time_seconds"
  = Some (SSeconds (latency E Extraction)).
Proof.
  unfold after_extraction, assign_state, time_key. simpl. by simplify_map_eq.
Qed.

Lemma after_extraction_ocr_time E d :
  doc_state (after_extraction E d) !! "ocr_completed_time_seconds"
  = Some (SSeconds (latency E OCR)).
Proof.
  unfold after_extraction, after_ocr, assign_state, time_key. simpl.
  by simplify_map_eq.
Qed.

(** X8. A run returns normally only when every step succeeded, and what
    it returns agrees with the record it leaves: the text is the OCR
    content, the JSON text is the serialised parse of the extraction
    reply to the selected images, both stage flags are true, the two
    returned processing times are the durations recorded in the state
    dictionary, and the store holds the in-memory record. *)
Theorem run_ocr_and_gpt_success :
  forall E f p js cfg w text parsed times,
    (run_ocr_and_gpt E f p js cfg w).1 = Ok (text, parsed, times) ->
    let w' := (run_ocr_and_gpt E f p js cfg w).2 in
    (exists ocr imgs reply x,
        get_ocr_results E f = Ok ocr
        /\ text = content ocr
        /\ selected E cfg (rasterized E f w) = Ok imgs
        /\ get_structured_data E text p js imgs = Ok reply
        /\ parse_json_markdown E (content reply) = Ok x
        /\ parsed = dumps x)
    /\ doc_state (record w') !! "ocr_completed" = Some (SFlag true)
    /\ doc_state (record w') !! "gpt_extraction_completed" = Some (SFlag true)
    /\ doc_state (record w') !! "ocr_completed_time_seconds"
       = Some (SSeconds (ocr_processing_time times))
    /\ doc_state (record w') !! "gpt_extraction_completed_time_seconds"
       = Some (SSeconds (gpt_extraction_time times))
    /\ container w' !! doc_id (record w') = Some (record w').
Proof.
  intros E f p js cfg w text parsed times Hok w'. subst w'.
  pose proof (run_ocr_and_gpt_shape E f p js cfg w) as Hrun.
  destruct (run_ocr_and_gpt E f p js cfg w) as [r w1]. simpl in *. subst r.
  inversion Hrun as
    [| | | |
     |ocr imgs reply r w' Hocr Hsel Hext Hup Hrec Hcon Htmp Hlog Htr Hr
        Hr' Hw'].
  destruct (cleanup_outcome E (rasterized E f w)) as [[]|]; [|discriminate].
  destruct (parse_json_markdown E (content reply)) as [x|] eqn:Hparse;
    [|discriminate].
  injection Hr as -> -> ->. rewrite Hrec, Hcon.
  rewrite after_extraction_flag, after_extraction_ocr_flag,
    after_extraction_time, after_extraction_ocr_time.
  split; [by exists ocr, imgs, reply, x|].
  repeat split. apply lookup_insert_eq.
Qed.

Lemma run_ocr_and_gpt_success_witness :
  (run_on accepting).1
  = Ok ("Invoice 42", "```json {}```",
        {| ocr_processing_time := 1000; gpt_extraction_time := 1000 |})
  /\ container (run_on accepting).2 !! doc_id (record (run_on accepting).2)
     = Some (record (run_on accepting).2).
Proof.
  split; [vm_compute; reflexivity|].
  destruct (run_ocr_and_gpt_success accepting
              "/tmp/in/invoice.pdf" "Extract the fields" "{}" default_config
              (fresh_world invoice []) "Invoice 42" "```json {}```"
              {| ocr_processing_time := 1000; gpt_extraction_time := 1000 |})
    as (_ & _ & _ & _ & _ & Hstore); [vm_compute; reflexivity|].
  exact Hstore.
Defined.

(** X9. However a run of [run_ocr_and_gpt] ends, it has not touched the
    record's id, properties, extracted data, model input or errors: it
    reports through the state dictionary only, and hands the OCR text and
    the extraction output to its caller instead of writing them. *)
Theorem run_ocr_and_gpt_frame :
  forall E f p js cfg w,
    let d := record w in
    let d' := record (run_ocr_and_gpt E f p js cfg w).2 in
    doc_id d' = doc_id d
    /\ doc_properties d' = doc_properties d
    /\ doc_extracted_data d' = doc_extracted_data d
    /\ doc_model_input d' = doc_model_input d
    /\ doc_errors d' = doc_errors d.
Proof.
  intros E f p js cfg w d d'. subst d d'.
  pose proof (run_ocr_and_gpt_shape E f p js cfg w) as Hrun.
  destruct (run_ocr_and_gpt E f p js cfg w) as [r w1]. simpl in *.
  run_new_cases Hrun; repeat split.
Qed.

(** X10. A run writes to the store under the record's own id only: the
    entry of every other id is as before, however the run ends. *)
Theorem run_ocr_and_gpt_store_frame :
  forall E f p js cfg w k,
    k <> doc_id (record w) ->
    container (run_ocr_and_gpt E f p js cfg w).2 !! k = container w !! k.
Proof.
  intros E f p js cfg w k Hk.
  pose proof (run_ocr_and_gpt_shape E f p js cfg w) as Hrun.
  destruct (run_ocr_and_gpt E f p js cfg w) as [r w1]. simpl in *.
  assert (Hid : doc_id (after_ocr E (record w)) = doc_id (record w))
    by reflexivity.
  run_new_cases Hrun; unfold saved; rewrite ?Hid;
    rewrite ?lookup_insert_ne by done; reflexivity.
Qed.

Lemma run_ocr_and_gpt_store_frame_witness :
  container (run_on accepting).2 !! "other.pdf" = None.
Proof.
  unfold run_on.
  rewrite (run_ocr_and_gpt_store_frame accepting
             "/tmp/in/invoice.pdf" "Extract the fields" "{}" default_config
             (fresh_world invoice []) "other.pdf");
    [reflexivity | vm_compute; discriminate].
Defined.

Lemma selected_bounds E cfg pages imgs :
  selected E cfg pages = Ok imgs ->
  get_size_of_base64_images imgs <= max_size cfg
  /\ (length imgs <= length pages)%nat
  /\ (0 <= max_images cfg -> (length imgs <= Z.to_nat (max_images cfg))%nat).
Proof.
  unfold selected.
  destruct (load_all E (py_slice_to (max_images cfg) pages)) as [loaded|]
    eqn:Hload; [|discriminate].
  intros Hred. apply load_all_length in Hload.
  pose proof (reduce_images_within _ _ _ Hred) as Hfit.
  pose proof (prefix_length _ _ (reduce_images_prefix _ _ _ Hred)) as Hlen.
  pose proof (prefix_length _ _ (py_slice_to_prefix (max_images cfg) pages)).
  split; [exact Hfit|]. split; [lia|].
  intros Hpos. rewrite Hload, py_slice_to_length in Hlen by exact Hpos. lia.
Qed.

(** X11. The extraction capability is called only after the OCR call
    returned and its state update was stored: whenever the history a run
    added holds a return or a failure of the extraction call, it holds the
    OCR return and the accepted upsert before it, and the store has the
    record with [ocr_completed] true. *)
Theorem extraction_follows_stored_ocr :
  forall E f p js cfg w,
    let w' := (run_ocr_and_gpt E f p js cfg w).2 in
    let new := new_events w w' in
    returned Extraction new || failed Extraction new = true ->
    (exists text rest,
        new = Returned OCR text :: Upserted (after_ocr E (record w)) :: rest)
    /\ (exists d,
          container w' !! doc_id (record w) = Some d
          /\ doc_state d !! "ocr_completed" = Some (SFlag true)).
Proof.
  intros E f p js cfg w w' new. subst w' new.
  pose proof (run_ocr_and_gpt_shape E f p js cfg w) as Hrun.
  destruct (run_ocr_and_gpt E f p js cfg w) as [r w1]. simpl in *.
  run_new_cases Hrun; simpl; try discriminate; intros _.
  - split; [eauto|]. exists (after_ocr E (record w)).
    split; [apply lookup_insert_eq | apply after_ocr_flag].
  - split; [eauto|]. exists (after_ocr E (record w)).
    split; [apply lookup_insert_eq | apply after_ocr_flag].
  - split; [eauto|]. exists (after_extraction E (record w)).
    split; [apply lookup_insert_eq | apply after_extraction_ocr_flag].
Qed.

Lemma extraction_follows_stored_ocr_witness :
  failed Extraction
    (new_events (fresh_world invoice []) (run_on extraction_down).2) = true
  /\ exists d,
       container (run_on extraction_down).2 !! "in__invoice.pdf" = Some d
       /\ doc_state d !! "ocr_completed" = Some (SFlag true).
Proof.
  split; [vm_compute; reflexivity|].
  destruct (extraction_follows_stored_ocr extraction_down
              "/tmp/in/invoice.pdf" "Extract the fields" "{}" default_config
              (fresh_world invoice [])) as [_ Hstored];
    [vm_compute; reflexivity | exact Hstored].
Defined.

(** X12. Whenever the extraction capability is called, the images it is
    given are the ones selected from the scratch pages: their total
    encoded size is within the configured limit, they are no more than
    the pages present and, for a non-negative [max_images], no more than
    [max_images]; the outcome of that call is the one in the history. *)
Theorem extraction_payload_bounded :
  forall E f p js cfg w,
    let w' := (run_ocr_and_gpt E f p js cfg w).2 in
    let new := new_events w w' in
    returned Extraction new || failed Extraction new = true ->
    exists ocr imgs,
      get_ocr_results E f = Ok ocr
      /\ selected E cfg (rasterized E f w) = Ok imgs
      /\ get_size_of_base64_images imgs <= max_size cfg
      /\ (length imgs <= length (rasterized E f w))%nat
      /\ (0 <= max_images cfg ->
          (length imgs <= Z.to_nat (max_images cfg))%nat)
      /\ ((exists reply,
             get_structured_data E (content ocr) p js imgs = Ok reply
             /\ Returned Extraction (content reply) ∈ new)
          \/ (exists e,
                get_structured_data E (content ocr) p js imgs = Raise e
                /\ Failed Extraction e ∈ new)).
Proof.
  intros E f p js cfg w w' new. subst w' new.
  pose proof (run_ocr_and_gpt_shape E f p js cfg w) as Hrun.
  destruct (run_ocr_and_gpt E f p js cfg w) as [r w1]. simpl in *.
  run_new_cases Hrun; simpl; try discriminate; intros _;
    destruct (selected_bounds _ _ _ _ Hsel) as (Hfit & Hlen & Hmax);
    exists ocr, imgs; repeat (split; [assumption|]).
  - right. exists e. split; [exact Hext|]. set_solver.
  - left. exists reply. split; [exact Hext|]. set_solver.
  - left. exists reply. split; [exact Hext|]. set_solver.
Qed.

Lemma extraction_payload_bounded_witness :
  returned Extraction
    (new_events (fresh_world invoice []) (run_on accepting).2) = true
  /\ exists imgs,
       selected accepting default_config
         (rasterized accepting "/tmp/in/invoice.pdf" (fresh_world invoice []))
       = Ok imgs
       /\ get_size_of_base64_images imgs <= max_size default_config.
Proof.
  split; [vm_compute; reflexivity|].
  destruct (extraction_payload_bounded accepting
              "/tmp/in/invoice.pdf" "Extract the fields" "{}" default_config
              (fresh_world invoice []))
    as (ocr & imgs & _ & Hsel & Hfit & _); [vm_compute; reflexivity|].
  exists imgs. split; [exact Hsel | exact Hfit].
Defined.

(** X13. When loading one of the first [max_images] pages fails, or the
    size loop raises, the extraction capability is not called at all and
    the run ends in an exception. *)
Theorem no_extraction_without_images :
  forall E f p js cfg w e,
    selected E cfg (rasterized E f w) = Raise e ->
    let out := run_ocr_and_gpt E f p js cfg w in
    let new := new_events w out.2 in
    (exists e', out.1 = Raise e')
    /\ returned Extraction new = false
    /\ failed Extraction new = false
    /\ doc_state (record out.2) !! "gpt_extraction_completed"
       = doc_state (record w) !! "gpt_extraction_completed".
Proof.
  intros E f p js cfg w e0 Hfail out new. subst out new.
  pose proof (run_ocr_and_gpt_shape E f p js cfg w) as Hrun.
  destruct (run_ocr_and_gpt E f p js cfg w) as [r w1]. simpl in *.
  run_new_cases Hrun; try congruence;
    rewrite ?after_ocr_extraction_flag; eauto.
Qed.

Lemma no_extraction_without_images_witness :
  selected accepting negative_limit
    (rasterized accepting "/tmp/in/invoice.pdf" (fresh_world invoice []))
  = Raise IndexError_pop
  /\ (run_ocr_and_gpt accepting "/tmp/in/invoice.pdf" "Extract the fields"
        "{}" negative_limit (fresh_world invoice [])).1
     = Raise IndexError_pop.
Proof.
  split; [vm_compute; reflexivity|].
  destruct (no_extraction_without_images accepting
              "/tmp/in/invoice.pdf" "Extract the fields" "{}" negative_limit
              (fresh_world invoice []) IndexError_pop)
    as ([e' He'] & _); [vm_compute; reflexivity|].
  rewrite He'. vm_compute in He'. injection He' as <-. reflexivity.
Defined.

Lemma surviving_all_removed E l :
  (forall img, img ∈ l -> os_remove E img = Ok tt) -> surviving E l l = [].
Proof.
  intros Hall. destruct (surviving E l l) as [|i rest] eqn:Hs; [reflexivity|].
  assert (Hi : i ∈ surviving E l l) by (rewrite Hs; left).
  apply surviving_spec in Hi. destruct Hi as [Hin Hfail].
  destruct (Hfail i Hin eq_refl) as [e He]. rewrite (Hall i Hin) in He.
  discriminate.
Qed.

(** X14. When the extraction call returned, its state update was stored
    and every deletion succeeds, the run leaves no page image in the
    scratch directory: the pages beyond [max_images] and the images
    dropped by the size loop are deleted as well. *)
Theorem scratch_empty_after_cleanup :
  forall E f p js cfg w,
    let w' := (run_ocr_and_gpt E f p js cfg w).2 in
    returned Extraction (new_events w w') = true ->
    upsert_item E (after_extraction E (record w)) = Ok tt ->
    (forall img, img ∈ rasterized E f w -> os_remove E img = Ok tt) ->
    tmp w' = [].
Proof.
  intros E f p js cfg w w'. subst w'.
  pose proof (run_ocr_and_gpt_shape E f p js cfg w) as Hrun.
  destruct (run_ocr_and_gpt E f p js cfg w) as [r w1]. simpl in *.
  run_new_cases Hrun; simpl; try discriminate; intros _ Hok Hall;
    [congruence|].
  destruct (attempted_all E (rasterized E f w)) as [-> _].
  - intros img e Himg Hrm. rewrite (Hall img Himg) in Hrm. discriminate.
  - by apply surviving_all_removed.
Qed.

Lemma scratch_empty_after_cleanup_witness :
  length (rasterized accepting "/tmp/in/invoice.pdf" (fresh_world invoice []))
  = 2%nat
  /\ tmp (run_ocr_and_gpt accepting "/tmp/in/invoice.pdf"
            "Extract the fields" "{}" one_page (fresh_world invoice [])).2
     = [].
Proof.
  split; [reflexivity|].
  apply (scratch_empty_after_cleanup accepting "/tmp/in/invoice.pdf"
           "Extract the fields" "{}" one_page (fresh_world invoice []));
    [vm_compute; reflexivity | reflexivity | intros; reflexivity].
Defined.

(** ** Whole runs of [process_gpt_summary] *)

Lemma process_gpt_summary_done_store E resp w s :
  get_summary_with_gpt E resp = Ok s ->
  upsert_item E (after_summary E (record w)) = Ok tt ->
  container (process_gpt_summary E resp w).2
  = <[doc_id (record w) := after_summary E (record w)]> (container w).
Proof.
  intros Hsum Hup.
  unfold process_gpt_summary, get_categorization, update_state, call, now, get,
    modify_record, modify, emit, write_log, lift, ret, raise, upsert,
    try_except, bind.
  destruct (categorization resp); simpl; rewrite Hsum; simpl;
    rewrite Z.add_simpl_l; fold (after_summary E (record w));
    rewrite Hup; reflexivity.
Qed.

Ltac summary_new_cases H :=
  destruct H as
    [es ws Hsum Hexc Hrec Hlog Htr
    |es rs ws Hsum Hexc Hrs Hrec Hlog Htr
    |ms es ws Hsum Hup Hexc Hrec Hlog Htr
    |ms es rs ws Hsum Hup Hexc Hrs Hrec Hlog Htr
    |ms ws Hsum Hup Hrec Hlog Htr];
  rewrite ?Hrec, ?Hlog.

(** X15. After a successful [process_gpt_summary] the summary text and
    the classification are in the in-memory record only: the copy in the
    store was written before they were assigned, so it has the new state
    flags but the extracted data of before the stage. *)
Theorem summary_text_not_in_store :
  forall E resp w,
    let out := process_gpt_summary E resp w in
    out.1 = Ok tt ->
    exists s stored,
      get_summary_with_gpt E resp = Ok s
      /\ gpt_summary_output (doc_extracted_data (record out.2)) = content s
      /\ container out.2 !! doc_id (record w) = Some stored
      /\ doc_state stored = doc_state (record out.2)
      /\ doc_extracted_data stored = doc_extracted_data (record w).
Proof.
  intros E resp w out. subst out.
  pose proof (process_gpt_summary_shape E resp w) as Hshape.
  pose proof (process_gpt_summary_done_store E resp w) as Hstore.
  destruct (process_gpt_summary E resp w) as [r w']. simpl in *.
  intros Hok.
  summary_new_cases Hshape; try discriminate.
  - subst rs. destruct (reraise_raises E es (summary_error es (record w)))
      as [e' He']. congruence.
  - subst rs.
    destruct (reraise_raises E es
                (summary_error es (after_summary E (record w))))
      as [e' He']. congruence.
  - exists ms, (after_summary E (record w)).
    rewrite (Hstore ms Hsum Hup).
    split; [exact Hsum|]. split; [reflexivity|].
    split; [apply lookup_insert_eq|]. split; reflexivity.
Qed.

Lemma summary_text_not_in_store_witness :
  (process_gpt_summary accepting no_category (fresh_world invoice [])).1 = Ok tt
  /\ exists stored,
       container (process_gpt_summary accepting no_category
                    (fresh_world invoice [])).2 !! "in__invoice.pdf"
       = Some stored
       /\ gpt_summary_output (doc_extracted_data stored) = "".
Proof.
  split; [vm_compute; reflexivity|].
  destruct (summary_text_not_in_store accepting no_category
              (fresh_world invoice []))
    as (s & stored & _ & _ & Hstored & _ & Hold); [vm_compute; reflexivity|].
  exists stored. split; [exact Hstored | by rewrite Hold].
Defined.

(** X16. When the extraction result has a [categorization] attribute,
    nothing is logged, and on success its value is the record's
    classification. *)
Theorem categorization_is_recorded :
  forall E resp w c,
    categorization resp = Some c ->
    let out := process_gpt_summary E resp w in
    log out.2 = log w
    /\ (out.1 = Ok tt ->
        classification (doc_extracted_data (record out.2)) = c).
Proof.
  intros E resp w c Hcat out. subst out.
  pose proof (process_gpt_summary_shape E resp w) as Hshape.
  destruct (process_gpt_summary E resp w) as [r w']. simpl in *.
  assert (Hprobe : probe_log resp = []) by (unfold probe_log; by rewrite Hcat).
  summary_new_cases Hshape; rewrite Hprobe, app_nil_r;
    (split; [reflexivity|]); intros Hok; try discriminate.
  - subst rs. destruct (reraise_raises E es (summary_error es (record w)))
      as [e' He']. congruence.
  - subst rs.
    destruct (reraise_raises E es
                (summary_error es (after_summary E (record w))))
      as [e' He']. congruence.
  - unfold with_summary. rewrite Hcat. reflexivity.
Qed.

Lemma categorization_is_recorded_witness :
  categorization categorized = Some "invoice"
  /\ classification
       (doc_extracted_data
          (record (process_gpt_summary accepting categorized
                     (fresh_world invoice [])).2)) = "invoice".
Proof.
  split; [reflexivity|].
  destruct (categorization_is_recorded accepting categorized
              (fresh_world invoice []) "invoice" eq_refl) as [_ Hcls].
  apply Hcls. vm_compute. reflexivity.
Defined.

Lemma summary_error_time e E d :
  doc_state (summary_error e (after_summary E d))
    !! "gpt_summary_completed_time_seconds"
  = Some (SSeconds (latency E Summary)).
Proof.
  unfold summary_error, after_summary, assign_state, time_key. simpl.
  by simplify_map_eq.
Qed.

(** X17. When the summarization call returned but the store rejected the
    state update with an exception deriving from [Exception], the stage
    ends in an exception with the flag set back to false while the
    duration of the call stays recorded, the error entry quotes the
    store's exception, and the summary text that was obtained is not
    written to the record. When the store's exception does not derive
    from [Exception], the handler does not run: it reaches the caller
    with the flag left true and no error entry. *)
Theorem summary_lost_on_store_failure :
  forall E resp w s e,
    get_summary_with_gpt E resp = Ok s ->
    upsert_item E (after_summary E (record w)) = Raise e ->
    let out := process_gpt_summary E resp w in
    (exists e', out.1 = Raise e')
    /\ doc_state (record out.2) !! "gpt_summary_completed_time_seconds"
       = Some (SSeconds (latency E Summary))
    /\ doc_extracted_data (record out.2) = doc_extracted_data (record w)
    /\ (is_Exception e = true ->
        doc_state (record out.2) !! "gpt_summary_completed"
        = Some (SFlag false)
        /\ doc_errors (record out.2)
           = doc_errors (record w) ++ ["NL processing error: " +:+ exn_str e])
    /\ (is_Exception e = false ->
        out.1 = Raise e
        /\ doc_state (record out.2) !! "gpt_summary_completed"
           = Some (SFlag true)
        /\ doc_errors (record out.2) = doc_errors (record w)).
Proof.
  intros E resp w s e Hsum0 Hup0 out. subst out.
  pose proof (process_gpt_summary_shape E resp w) as Hshape.
  destruct (process_gpt_summary E resp w) as [r w']. simpl in *.
  assert (Htime : doc_state (after_summary E (record w))
                    !! "gpt_summary_completed_time_seconds"
                  = Some (SSeconds (latency E Summary)))
    by (unfold after_summary, assign_state, time_key; simpl;
        by simplify_map_eq).
  summary_new_cases Hshape; try congruence;
    assert (es = e) as -> by congruence.
  - rewrite Htime, after_summary_flag.
    split; [eauto|]. split; [reflexivity|]. split; [reflexivity|].
    split; [congruence | by repeat split].
  - rewrite summary_error_flag, summary_error_time, summary_error_errors.
    split; [subst rs; apply reraise_raises|].
    split; [reflexivity|]. split; [reflexivity|].
    split; [by split | congruence].
Qed.

Lemma summary_lost_on_store_failure_witness :
  get_summary_with_gpt store_down no_category = Ok {| content := "An invoice." |}
  /\ is_Exception StoreDown = true
  /\ doc_errors (record (process_gpt_summary store_down no_category
                           (fresh_world invoice [])).2)
     = [] ++ ["NL processing error: Request timed out"]
  /\ gpt_summary_output
       (doc_extracted_data
          (record (process_gpt_summary store_down no_category
                     (fresh_world invoice [])).2)) = "".
Proof.
  split; [reflexivity|]. split; [reflexivity|].
  destruct (summary_lost_on_store_failure store_down no_category
              (fresh_world invoice []) {| content := "An invoice." |} StoreDown
              eq_refl eq_refl) as (_ & _ & Hdata & Hexc & _).
  destruct (Hexc eq_refl) as [_ Herr].
  split; [exact Herr | by rewrite Hdata].
Defined.

(** X18. However [process_gpt_summary] ends, the record's id, properties
    and model input, and the accuracy, OCR text and extraction output of
    its extracted data are as before; the errors of before are kept, in
    order, with at most one entry added after them. *)
Theorem process_gpt_summary_frame :
  forall E resp w,
    let d := record w in
    let d' := record (process_gpt_summary E resp w).2 in
    doc_id d' = doc_id d
    /\ doc_properties d' = doc_properties d
    /\ doc_model_input d' = doc_model_input d
    /\ accuracy (doc_extracted_data d') = accuracy (doc_extracted_data d)
    /\ ocr_output (doc_extracted_data d') = ocr_output (doc_extracted_data d)
    /\ gpt_extraction_output (doc_extracted_data d')
       = gpt_extraction_output (doc_extracted_data d)
    /\ doc_errors d `prefix_of` doc_errors d'
    /\ (length (doc_errors d') <= S (length (doc_errors d)))%nat.
Proof.
  intros E resp w d d'. subst d d'.
  pose proof (process_gpt_summary_shape E resp w) as Hshape.
  destruct (process_gpt_summary E resp w) as [r w']. simpl in *.
  summary_new_cases Hshape; do 6 (split; [reflexivity|]);
    rewrite ?summary_error_errors;
    (split; [by apply prefix_app_r || reflexivity|]);
    rewrite ?length_app; simpl; lia.
Qed.

(** ** Connecting to the store *)

(** X19. When one of the four environment variables is unset,
    [connect_to_cosmos] raises [KeyError] for the first unset one in the
    order endpoint, key, database name, container name, whatever the SDK
    would have answered. *)
Theorem connect_to_cosmos_missing_variable :
  forall environ sdk i k,
    cosmos_variables !! i = Some k ->
    environ !! k = None ->
    (forall j k',
       (j < i)%nat -> cosmos_variables !! j = Some k' ->
       is_Some (environ !! k')) ->
    connect_to_cosmos environ sdk = Raise (KeyError k).
Proof.
  intros environ sdk i k Hi Hk Hbefore.
  assert (H0 : (0 < i)%nat -> is_Some (environ !! "COSMOS_DB_ENDPOINT"))
    by (intros; by apply (Hbefore 0%nat)).
  assert (H1 : (1 < i)%nat -> is_Some (environ !! "COSMOS_DB_KEY"))
    by (intros; by apply (Hbefore 1%nat)).
  assert (H2 : (2 < i)%nat -> is_Some (environ !! "COSMOS_DB_DATABASE_NAME"))
    by (intros; by apply (Hbefore 2%nat)).
  unfold connect_to_cosmos, environ_item.
  destruct i as [|[|[|[|i]]]]; simpl in Hi; try discriminate;
    injection Hi as <-.
  - by rewrite Hk.
  - destruct H0 as [v0 ->]; [lia|]. by rewrite Hk.
  - destruct H0 as [v0 ->]; [lia|]. destruct H1 as [v1 ->]; [lia|].
    by rewrite Hk.
  - destruct H0 as [v0 ->]; [lia|]. destruct H1 as [v1 ->]; [lia|].
    destruct H2 as [v2 ->]; [lia|]. by rewrite Hk.
Qed.

Lemma connect_to_cosmos_missing_variable_witness :
  half_configured !! "COSMOS_DB_KEY" = None
  /\ connect_to_cosmos half_configured no_sdk = Raise (KeyError "COSMOS_DB_KEY").
Proof.
  split; [reflexivity|].
  apply (connect_to_cosmos_missing_variable half_configured no_sdk 1%nat);
    [reflexivity | reflexivity |].
  intros [|j] k' Hj Hk'; [|lia]. injection Hk' as <-. by eexists.
Defined.

(** ** Staging a blob *)

Lemma prefix_append a b : String.prefix a (a +:+ b) = true.
Proof.
  induction a as [|c a IH]; [by destruct b|]. simpl.
  destruct (Ascii.ascii_dec c c); [exact IH | congruence].
Qed.

(** X20. The path [write_blob_to_temp_file] returns is
    [os.path.join(gettempdir(), blob.name)]: a blob name that starts with
    a separator is returned as it is, the temporary directory being
    ignored; any other name is appended to the temporary directory, with
    one separator in between when the directory is non-empty and does not
    end with a separator, and with none otherwise. *)
Theorem write_blob_path :
  forall O myblob fs p,
    (write_blob_to_temp_file O myblob fs).1 = Ok p ->
    (starts_with_sep (name myblob) = true -> p = name myblob)
    /\ (starts_with_sep (name myblob) = false ->
        String.prefix (gettempdir O) p = true
        /\ (gettempdir O = "" \/ ends_with_sep (gettempdir O) = true ->
            p = gettempdir O +:+ name myblob)
        /\ (gettempdir O <> "" -> ends_with_sep (gettempdir O) = false ->
            p = gettempdir O +:+ "/" +:+ name myblob)).
Proof.
  intros O myblob fs p. unfold write_blob_to_temp_file.
  destruct (read myblob) as [data|]; [|discriminate].
  destruct (os_makedirs O _); [|discriminate].
  destruct (open_write O _ data); [|discriminate].
  intros [= <-]. unfold posix_join.
  destruct (starts_with_sep (name myblob)); split; try discriminate; auto.
  intros _.
  destruct (String.eqb_spec (gettempdir O) "") as [Hempty|Hfull]; simpl.
  - split; [apply prefix_append|]. split; [done|]. intros Hne. by destruct Hne.
  - destruct (ends_with_sep (gettempdir O)) eqn:Hend;
      (split; [apply prefix_append|]); split; try done.
    intros [Hempty|Hsep]; [by destruct Hfull | discriminate].
Qed.

Lemma write_blob_path_witness :
  (write_blob_to_temp_file linux {| name := "/etc/cron.d/job"; read := Ok "x" |}
     []).1 = Ok "/etc/cron.d/job"
  /\ "/etc/cron.d/job" = name {| name := "/etc/cron.d/job"; read := Ok "x" |}.
Proof.
  split; [reflexivity|].
  destruct (write_blob_path linux {| name := "/etc/cron.d/job"; read := Ok "x" |}
              [] "/etc/cron.d/job" eq_refl) as [Habs _].
  apply Habs. reflexivity.
Defined.

Lemma list_ascii_of_string_app a b :
  String.list_ascii_of_string (a +:+ b)
  = String.list_ascii_of_string a ++ String.list_ascii_of_string b.
Proof. induction a as [|c a IH]; [reflexivity|]. simpl. by rewrite IH. Qed.

Lemma drop_while_app_all {A} (f : A -> bool) l r :
  forallb f l = true -> drop_while f (l ++ r) = drop_while f r.
Proof.
  induction l as [|x l IH]; [reflexivity|]. simpl.
  destruct (f x); [exact IH | discriminate].
Qed.

Lemma no_sep_chars s :
  contains_char path_separator s = false ->
  forallb (fun c => negb (is_sep c)) (rev (String.list_ascii_of_string s)) = true.
Proof.
  intros H. apply forallb_forall. intros c Hc. apply in_rev in Hc.
  induction s as [|d s IH]; [destruct Hc|]. simpl in H, Hc.
  apply orb_false_elim in H. destruct H as [Hd Hs].
  destruct Hc as [<-|Hc]; [|auto]. unfold is_sep. by rewrite Hd.
Qed.

Lemma ends_with_sep_rev s :
  ends_with_sep s
  = match rev (String.list_ascii_of_string s) with
    | c :: _ => is_sep c
    | [] => false
    end.
Proof.
  induction s as [|c s IH]; [reflexivity|].
  destruct s as [|d s]; [reflexivity|].
  change (ends_with_sep (String c (String d s)))
    with (ends_with_sep (String d s)).
  rewrite IH.
  change (String.list_ascii_of_string (String c (String d s)))
    with (c :: String.list_ascii_of_string (String d s)).
  set (l := String.list_ascii_of_string (String d s)).
  assert (Hl : length (rev l) = S (String.length s))
    by (rewrite length_rev; subst l; simpl; f_equal;
        clear; induction s; simpl; congruence).
  change (rev (c :: l)) with (rev l ++ [c]).
  destruct (rev l); [discriminate | reflexivity].
Qed.

(** The directory of [x/file] is [x], for a [file] without separators and
    an [x] that does not end with one. *)
Lemma posix_dirname_parent x file :
  contains_char path_separator file = false ->
  x <> "" -> ends_with_sep x = false ->
  posix_dirname (x +:+ "/" +:+ file) = x.
Proof.
  intros Hfile Hx Hend. unfold posix_dirname.
  rewrite list_ascii_of_string_app. simpl.
  rewrite rev_app_distr. simpl. rewrite <- app_assoc. simpl.
  rewrite drop_while_app_all by (by apply no_sep_chars). simpl.
  rewrite ends_with_sep_rev in Hend.
  destruct (rev (String.list_ascii_of_string x)) as [|c l] eqn:Hr.
  - exfalso. apply Hx. apply (f_equal (@length _)) in Hr.
    rewrite length_rev in Hr. by destruct x.
  - change (is_sep "/") with true. simpl. rewrite Hend. simpl.
    change (rev l ++ [c]) with (rev (c :: l)).
    rewrite <- Hr, rev_involutive.
    apply String.string_of_list_ascii_of_string.
Qed.

(** X21. For a blob name whose last component holds no separator, the
    directory ensured before writing is the parent of the file written:
    on success the function has created the directories of that parent
    and then written the blob's content to the file, and nothing else; a
    blob at the top level is written directly into the temporary
    directory. *)
Theorem write_blob_creates_parent_then_writes :
  forall O myblob fs parent file p,
    posix_join (gettempdir O) (name myblob) = parent +:+ "/" +:+ file ->
    contains_char path_separator file = false ->
    parent <> "" ->
    ends_with_sep parent = false ->
    (write_blob_to_temp_file O myblob fs).1 = Ok p ->
    exists data,
      read myblob = Ok data
      /\ p = parent +:+ "/" +:+ file
      /\ (write_blob_to_temp_file O myblob fs).2
         = fs ++ [MakeDirs parent; WriteFile p data].
Proof.
  intros O myblob fs parent file p Hjoin Hfile Hparent Hend.
  unfold write_blob_to_temp_file. rewrite Hjoin.
  rewrite (posix_dirname_parent _ _ Hfile Hparent Hend).
  destruct (read myblob) as [data|]; [|discriminate].
  destruct (os_makedirs O parent); [|discriminate].
  destruct (open_write O _ data); [|discriminate].
  simpl. intros [= <-]. exists data. rewrite <- app_assoc. auto.
Qed.

Lemma write_blob_creates_parent_then_writes_witness :
  posix_join (gettempdir linux) "a.pdf" = "/tmp" +:+ "/" +:+ "a.pdf"
  /\ exists data,
       (write_blob_to_temp_file linux {| name := "a.pdf"; read := Ok "%PDF" |}
          []).2
       = [] ++ [MakeDirs "/tmp"; WriteFile "/tmp/a.pdf" data].
Proof.
  split; [reflexivity|].
  destruct (write_blob_creates_parent_then_writes linux
              {| name := "a.pdf"; read := Ok "%PDF" |} [] "/tmp" "a.pdf"
              "/tmp/a.pdf")
    as (data & _ & _ & Hfs);
    [reflexivity | reflexivity | discriminate | reflexivity | reflexivity |].
  exists data. exact Hfs.
Defined.
